(** * Perception loop of [run_exp] (src/main.py)

    A shallow embedding of the per-frame perception pipeline of [run_exp]:
    intrinsics extraction, view-matrix inversion, per-object masking,
    point-cloud gating and filtering, pose estimation with the OBB
    fallback, the camera-to-world transform, and the aggregation of the
    per-frame dictionaries into the run dictionary.

    Numbers.  The program computes with IEEE doubles; here every float is
    an exact rational ([Qc], canonical fractions with Leibniz equality).
    Integer image data (segmentation ids, colour channels) is [Z].

    Arrays.  A numpy array of rank 1 is a [list], of rank 2 a list of rows.

    Collaborators.  Open3D and the [Simulation] class are not part of the
    file; they enter as the interfaces [Open3D] and [Simulator] below.
    So does the one numpy routine whose outcome depends on rounding, the
    matrix inversion: it is the interface [LinAlg]. *)

From Stdlib Require Import ZArith QArith Qcanon Qround Field Lqa Lia.
From Stdlib Require Import List Finite Sorted Permutation String Ascii.
From stdpp Require Import base option list gmap strings pretty.

Local Open Scope Z_scope.
Local Open Scope Qc_scope.

(** ** Exceptions *)

Inductive Exn : Type :=
  | LinAlgError                 (* numpy.linalg.LinAlgError: singular matrix *)
  | ValueError                  (* numpy reshape with a wrong element count *)
  | Open3DError (msg : string). (* anything raised by an Open3D call *)

(** A computation that may raise: [inl] is the value, [inr] the exception. *)
Definition Raises (A : Type) : Type := A + Exn.

Definition ret {A} (a : A) : Raises A := inl a.
Definition raise {A} (e : Exn) : Raises A := inr e.
Definition bind {A B} (c : Raises A) (k : A -> Raises B) : Raises B :=
  match c with
  | inl a => k a
  | inr e => inr e
  end.

Notation "'do' x <- c ; k" := (bind c (fun x => k))
  (at level 10, x name, c at level 100, k at level 200).

(** ** numpy on lists *)

Module np.

Definition vec := list Qc.
Definition mat := list (list Qc).

(** [np.array(xs).reshape(4, 4)]: row-major, raises unless 16 elements. *)
Definition reshape44 (xs : list Qc) : Raises mat :=
  match xs with
  | [a0; a1; a2; a3; b0; b1; b2; b3; c0; c1; c2; c3; d0; d1; d2; d3] =>
      ret [[a0; a1; a2; a3]; [b0; b1; b2; b3];
           [c0; c1; c2; c3]; [d0; d1; d2; d3]]
  | _ => raise ValueError
  end.

(** [M[r, c]] *)
Definition ix2 (M : mat) (r c : nat) : Qc := nth c (nth r M []) 0.

(** [np.append(v, x)] *)
Definition append (v : vec) (x : Qc) : vec := v ++ [x].

(** inner product of two rank-1 arrays *)
Fixpoint vdot (a b : vec) : Qc :=
  match a, b with
  | x :: a', y :: b' => x * y + vdot a' b'
  | _, _ => 0
  end.

(** [np.dot(M, v)] for a rank-2 [M] and a rank-1 [v] *)
Definition dot_mv (M : mat) (v : vec) : vec := List.map (fun row => vdot row v) M.

(** column [j] of a rank-2 array *)
Definition col (B : mat) (j : nat) : vec := List.map (fun row => nth j row 0) B.

(** number of columns (of the first row) *)
Definition ncols (B : mat) : nat := length (nth 0 B []).

(** [np.dot(A, B)] for two rank-2 arrays *)
Definition dot_mm (A B : mat) : mat :=
  List.map (fun row => List.map (fun j => vdot row (col B j)) (seq 0 (ncols B))) A.

(** [M[:3, :3]] *)
Definition block33 (M : mat) : mat := List.map (firstn 3) (firstn 3 M).

(** [np.eye(3)] *)
Definition eye3 : mat := [[1; 0; 0]; [0; 1; 0]; [0; 0; 1]].

(** componentwise sum of two rows *)
Fixpoint vadd (a b : vec) : vec :=
  match a, b with
  | x :: a', y :: b' => (x + y) :: vadd a' b'
  | _, _ => []
  end.

(** [np.mean(P, axis=0)] for an n x 3 array of points; the pipeline
    calls it on non-empty arrays only *)
Definition mean0 (P : mat) : vec :=
  let n := Q2Qc (inject_Z (Z.of_nat (length P))) in
  List.map (fun s => s / n) (fold_right vadd [0; 0; 0] P).

(** determinant of a 3 x 3 array given by its entries *)
Definition det3 (a b c d e f g h i : Qc) : Qc :=
  a * (e * i - f * h) - b * (d * i - f * g) + c * (d * h - e * g).

(** determinant of a 4 x 4 array, expanded along the first row *)
Definition det4 (M : mat) : Qc :=
  match M with
  | [[a0; a1; a2; a3]; [b0; b1; b2; b3];
     [c0; c1; c2; c3]; [d0; d1; d2; d3]] =>
      a0 * det3 b1 b2 b3 c1 c2 c3 d1 d2 d3
      - a1 * det3 b0 b2 b3 c0 c2 c3 d0 d2 d3
      + a2 * det3 b0 b1 b3 c0 c1 c3 d0 d1 d3
      - a3 * det3 b0 b1 b2 c0 c1 c2 d0 d1 d2
  | _ => 0
  end.

(** adjugate (transposed cofactor matrix) of a 4 x 4 array *)
Definition adj4 (M : mat) : mat :=
  match M with
  | [[a0; a1; a2; a3]; [b0; b1; b2; b3];
     [c0; c1; c2; c3]; [d0; d1; d2; d3]] =>
      [[  det3 b1 b2 b3 c1 c2 c3 d1 d2 d3;
        - det3 a1 a2 a3 c1 c2 c3 d1 d2 d3;
          det3 a1 a2 a3 b1 b2 b3 d1 d2 d3;
        - det3 a1 a2 a3 b1 b2 b3 c1 c2 c3];
       [- det3 b0 b2 b3 c0 c2 c3 d0 d2 d3;
          det3 a0 a2 a3 c0 c2 c3 d0 d2 d3;
        - det3 a0 a2 a3 b0 b2 b3 d0 d2 d3;
          det3 a0 a2 a3 b0 b2 b3 c0 c2 c3];
       [  det3 b0 b1 b3 c0 c1 c3 d0 d1 d3;
        - det3 a0 a1 a3 c0 c1 c3 d0 d1 d3;
          det3 a0 a1 a3 b0 b1 b3 d0 d1 d3;
        - det3 a0 a1 a3 b0 b1 b3 c0 c1 c3];
       [- det3 b0 b1 b2 c0 c1 c2 d0 d1 d2;
          det3 a0 a1 a2 c0 c1 c2 d0 d1 d2;
        - det3 a0 a1 a2 b0 b1 b2 d0 d1 d2;
          det3 a0 a1 a2 b0 b1 b2 c0 c1 c2]]
  | _ => []
  end.

(** The inverse of a 4 x 4 array in exact arithmetic: the adjugate over
    the determinant when the determinant is non-zero, [LinAlgError]
    otherwise.  This is the array [np.linalg.inv] approximates when it
    returns; when the routine raises is another matter, see [LinAlg]. *)
Definition linalg_inv (M : mat) : Raises mat :=
  let d := det4 M in
  if Qc_eq_bool d 0 then raise LinAlgError
  else ret (List.map (List.map (fun x => x / d)) (adj4 M)).

(** [np.where(mask, a, 0)] on rank-2 arrays of one shape *)
Definition where0 {A} (zero : A) (mask : list (list bool)) (a : list (list A))
  : list (list A) :=
  zip_with (zip_with (fun (m : bool) x => if m then x else zero)) mask a.

(** [np.any(mask)] on a rank-2 boolean array *)
Definition any (mask : list (list bool)) : bool :=
  existsb (existsb (fun b => b)) mask.

(** insertion of a value into a strictly increasing list *)
Fixpoint insert_sorted (x : Z) (l : list Z) : list Z :=
  match l with
  | [] => [x]
  | y :: l' =>
      if (x <? y)%Z then x :: y :: l'
      else if (x =? y)%Z then y :: l'
      else y :: insert_sorted x l'
  end.

(** [np.unique(a)]: the sorted distinct values of the flattened array *)
Definition unique (a : list (list Z)) : list Z :=
  fold_right insert_sorted [] (concat a).

(** [a == v] elementwise on a rank-2 integer array *)
Definition eq_mask (a : list (list Z)) (v : Z) : list (list bool) :=
  List.map (List.map (fun x => (x =? v)%Z)) a.

(** [~np.all(P == 0, axis=1)]: per row, whether some entry is non-zero *)
Definition not_all_zero (P : mat) : list bool :=
  List.map (fun row => negb (forallb (fun x => Qc_eq_bool x 0) row)) P.

(** [a[mask]] with a rank-1 boolean mask over the rows of [a] *)
Fixpoint select {A} (mask : list bool) (a : list A) : list A :=
  match mask, a with
  | m :: mask', x :: a' => if m then x :: select mask' a' else select mask' a'
  | _, _ => []
  end.

(** [np.array_equal(a, b)] on rank-1 arrays *)
Fixpoint array_equal (a b : vec) : bool :=
  match a, b with
  | [], [] => true
  | x :: a', y :: b' => Qc_eq_bool x y && array_equal a' b'
  | _, _ => false
  end.

(** [M.shape == (r, c)] *)
Definition has_shape (r c : nat) (M : mat) : Prop :=
  length M = r /\ Forall (fun row => length row = c) M.

(** [a[r, c]], when the position exists *)
Definition pixel {A} (a : list (list A)) (r c : nat) : option A :=
  match nth_error a r with
  | Some row => nth_error row c
  | None => None
  end.

(** [np.count_nonzero(mask)] *)
Definition count_nonzero (mask : list (list bool)) : nat :=
  length (List.filter (fun b => b) (concat mask)).

(** [np.eye(4)] *)
Definition eye4 : mat := [[1; 0; 0; 0]; [0; 1; 0; 0]; [0; 0; 1; 0]; [0; 0; 0; 1]].

End np.

(** ** Data of the pipeline *)

(** Images as the simulator renders them. *)
Definition RgbImage : Type := list (list (list Z)).   (* H x W x channels *)
Definition DepthImage : Type := list (list Qc).       (* H x W *)
Definition SegImage : Type := list (list Z).          (* H x W, id <= 0 is background *)

(** [o3d.camera.PinholeCameraIntrinsic] *)
Record Intrinsic : Type := mkIntrinsic
  { width : Z; height : Z; fx : Qc; fy : Qc; cx : Qc; cy : Qc }.

(** [o3d.geometry.PointCloud]: points and their colours, both n x 3. *)
Record PointCloud : Type := mkPointCloud
  { points : np.mat; colors : np.mat }.

(** [o3d.geometry.OrientedBoundingBox] *)
Record OrientedBoundingBox : Type := mkOBB
  { center : np.vec; R : np.mat; extent : np.vec }.

(** Values stored in a pose dictionary. *)
Inductive PyVal : Type :=
  | PArr1 (v : np.vec)
  | PArr2 (m : np.mat)
  | PNone.

(** A pose record is a Python dict literal: keys in the order written. *)
Definition PoseDict : Type := list (string * PyVal).

Fixpoint dict_get (d : PoseDict) (k : string) : option PyVal :=
  match d with
  | [] => None
  | (k', v) :: d' => if String.eqb k' k then Some v else dict_get d' k
  end.

(** What the frame hands to the viewer. *)
Inductive Geometry : Type :=
  | CoordinateFrame (size : Qc) (origin : np.vec)
  | PaintedCloud (pts : np.mat) (color : np.vec)
  | WorldBox (c : np.vec) (rot : np.mat) (ext : np.vec).

(** The lines the frame prints. *)
Inductive Event : Type :=
  | UniqueIds (ids : list Z)
  | Processing (obj_id : Z)
  | NoPixels (obj_id : Z)
  | TooFewPoints (obj_id : Z) (n : nat)
  | CloudSize (obj_id : Z) (n : nat)
  | FilterError (obj_id : Z) (e : Exn)
  | PoseReport (obj_id : Z) (pc pw : np.vec) (ow : np.mat) (dims : np.vec)
  | ObbError (obj_id : Z) (e : Exn)
  | Detected (n : nat)
  | ObjectAt (obj_id : Z) (pw : option PyVal).

(** The prints that report a problem with an object. *)
Definition is_error_event (e : Event) : bool :=
  match e with
  | NoPixels _ | TooFewPoints _ _ | FilterError _ _ | ObbError _ _ => true
  | _ => false
  end.

(** The object an object-level print is about. *)
Definition event_object (e : Event) : option Z :=
  match e with
  | Processing i | NoPixels i | TooFewPoints i _ | CloudSize i _
  | FilterError i _ | PoseReport i _ _ _ _ | ObbError i _ | ObjectAt i _ => Some i
  | UniqueIds _ | Detected _ => None
  end.

(** ** The collaborators *)

(** The Open3D calls of the pipeline.  The two filter steps and the box
    fit may raise; the constructors do not. *)
Class Open3D : Type := {
  RGBDImage : Type;
  create_from_color_and_depth :
    RgbImage -> DepthImage -> forall (depth_scale depth_trunc : Qc)
                                     (convert_rgb_to_intensity : bool), RGBDImage;
  create_from_rgbd_image : RGBDImage -> Intrinsic -> PointCloud;
  voxel_down_sample : PointCloud -> forall (voxel_size : Qc), Raises PointCloud;
  remove_statistical_outlier :
    PointCloud -> forall (nb_neighbors : nat) (std_ratio : Qc),
      Raises (PointCloud * list nat);
  get_oriented_bounding_box : PointCloud -> Raises OrientedBoundingBox
}.

(** The [Simulation] object, as far as [run_exp] uses it. *)
Class Simulator (S : Type) : Type := {
  projection_matrix : S -> list Qc;
  stat_viewMat : S -> list Qc;
  reset : string -> S -> S;
  step : S -> S;
  get_static_renders : S -> RgbImage * DepthImage * SegImage
}.

(** [np.linalg.inv] as the run calls it at line 73.  The routine
    factorises the array in doubles and raises [LinAlgError] when the
    factorisation meets a pivot that is exactly zero: a singular array
    whose pivots round to something else is inverted without complaint,
    and an invertible one whose pivot rounds to zero raises.  What it
    returns and when it raises is therefore left open here. *)
Class LinAlg : Type := {
  inv : np.mat -> Raises np.mat
}.

(** The inversion without rounding. *)
Definition exact_inverse : LinAlg := {| inv := np.linalg_inv |}.

(** ** Intrinsics (lines 31-36 and 76-83) *)

(** The four numbers are read once, before the loops; the intrinsic
    object every frame builds from them is the same value each time. *)

Definition intrinsics_builder (projection : list Qc) : Raises Intrinsic :=
  do projection_matrix <- np.reshape44 projection;
  let (width, height) := (640%Z, 480%Z) in
  let fx := np.ix2 projection_matrix 0 0 in
  let fy := np.ix2 projection_matrix 1 1 in
  let cx := np.ix2 projection_matrix 0 2 in
  let cy := np.ix2 projection_matrix 1 2 in
  ret (mkIntrinsic width height fx fy cx cy).

(** ** Camera frame to world frame (lines 166-167, 175, 196-198, 234) *)

(** [np.dot(M, np.append(p, 1.0))[:3]] *)
Definition to_world_point (M : np.mat) (p : np.vec) : np.vec :=
  firstn 3 (np.dot_mv M (np.append p 1)).

(** [np.dot(M[:3, :3], Rc)] *)
Definition to_world_rotation (M : np.mat) (Rc : np.mat) : np.mat :=
  np.dot_mm (np.block33 M) Rc.

(** ** The per-frame state the object loop mutates *)

(** A Python dict iterates over its keys in the order of their first
    assignment: [insertion_order] is that order for
    [timestep_object_poses]. *)
Record FrameState : Type := mkFrameState
  { timestep_object_poses : gmap Z PoseDict;
    insertion_order : list Z;
    visualization_geometries : list Geometry;
    stdout : list Event }.

Definition print (e : Event) (st : FrameState) : FrameState :=
  mkFrameState (timestep_object_poses st) (insertion_order st)
               (visualization_geometries st) (stdout st ++ [e]).

(** [timestep_object_poses[obj_id] = pose]: a new key goes to the end, a
    key already there keeps its place. *)
Definition store (obj_id : Z) (pose : PoseDict) (st : FrameState) : FrameState :=
  mkFrameState (<[obj_id := pose]> (timestep_object_poses st))
               (match timestep_object_poses st !! obj_id with
                | Some _ => insertion_order st
                | None => insertion_order st ++ [obj_id]
                end)
               (visualization_geometries st) (stdout st).

Definition show (g : Geometry) (st : FrameState) : FrameState :=
  mkFrameState (timestep_object_poses st) (insertion_order st)
               (visualization_geometries st ++ [g]) (stdout st).

(** [timestep_object_poses.items()] *)
Definition items (st : FrameState) : list (Z * PoseDict) :=
  omap (fun obj_id => pair obj_id <$> timestep_object_poses st !! obj_id)
       (insertion_order st).

(** [x % 1.0] for a float [x] *)
Definition fmod1 (x : Qc) : Qc := x - Q2Qc (inject_Z (Qfloor x)).

Definition Qc_of_Z (z : Z) : Qc := Q2Qc (inject_Z z).

(** ** The object loop body (lines 100-236) *)

Section Frame.

Context `{o3d : Open3D}.

Variables (rgb_s : RgbImage) (depth_s : DepthImage) (seg_s : SegImage).
Variable intrinsic : Intrinsic.
Variable stat_viewMat_inv : np.mat.

(** [rgb_s[:, :, c]] *)
Definition channel (img : RgbImage) (c : nat) : list (list Z) :=
  List.map (List.map (fun px => nth c px 0%Z)) img.

(** [img[:, :, c] = vals], for an image that has channel [c].  The
    renders are H x W x 4 arrays; on an image without channel [c] the
    assignment raises IndexError, which is not covered here. *)
Definition set_channel (img : RgbImage) (c : nat) (vals : list (list Z)) : RgbImage :=
  zip_with (zip_with (fun px v => <[c := v]> px)) img vals.

(** Lines 115-121: the colour and depth images with the pixels outside
    the mask set to zero. *)
Definition mask_rgb (mask : list (list bool)) : RgbImage :=
  fold_left (fun rgb_masked c =>
               set_channel rgb_masked c (np.where0 0%Z mask (channel rgb_s c)))
            (seq 0 3) rgb_s.

Definition mask_depth (mask : list (list bool)) : DepthImage :=
  np.where0 0 mask depth_s.

(** Lines 107-142: the camera-frame cloud of one object, origin points
    removed. *)
Definition object_cloud (obj_id : Z) : PointCloud :=
  let mask := np.eq_mask seg_s obj_id in
  let rgb_masked := mask_rgb mask in
  let depth_masked := mask_depth mask in
  let rgbd_object :=
    create_from_color_and_depth rgb_masked depth_masked 1 (Qc_of_Z 1000) false in
  let pcd_object := create_from_rgbd_image rgbd_object intrinsic in
  let mask := np.not_all_zero (points pcd_object) in
  mkPointCloud (np.select mask (points pcd_object))
               (np.select mask (colors pcd_object)).

(** Lines 152-154: downsample, then remove outliers. *)
Definition filter_cloud (pcd_object : PointCloud) : Raises PointCloud :=
  do pcd_object <- voxel_down_sample pcd_object (Q2Qc (1 # 100));
  do r <- remove_statistical_outlier pcd_object 20 (Qc_of_Z 2);
  ret (fst r).

(** Lines 178-184 *)
Definition pose_record (centroid_camera : np.vec) (orientation_camera : np.mat)
    (centroid_world : np.vec) (orientation_world : np.mat) (dims : np.vec)
  : PoseDict :=
  [("position_camera", PArr1 centroid_camera);
   ("orientation_camera", PArr2 orientation_camera);
   ("position_world", PArr1 centroid_world);
   ("orientation_world", PArr2 orientation_world);
   ("dimensions", PArr1 dims)]%string.

(** Lines 230-236 *)
Definition fallback_record (centroid_camera centroid_world : np.vec) : PoseDict :=
  [("position_camera", PArr1 centroid_camera);
   ("position_world", PArr1 centroid_world);
   ("orientation_camera", PArr2 np.eye3);
   ("orientation_world", PArr2 (to_world_rotation stat_viewMat_inv np.eye3));
   ("dimensions", PNone)]%string.

(** Line 206, without rounding.  In doubles a product such as 90 * 0.7
    falls just below an integer and its channel comes out just below 1
    instead of 0; the channel lies in [0, 1) either way. *)
Definition object_color (obj_id : Z) : np.vec :=
  [fmod1 (Qc_of_Z obj_id * Q2Qc (1 # 10));
   fmod1 (Qc_of_Z obj_id * Q2Qc (3 # 10));
   fmod1 (Qc_of_Z obj_id * Q2Qc (7 # 10))].

(** Lines 160-236: centroid, transform, box fit or fallback.  Of the
    statements inside the [try], only the box fit is taken to raise; the
    prints and the geometry constructors that follow it are total. *)
Definition estimate_pose (obj_id : Z) (pcd_object : PointCloud)
    (st : FrameState) : FrameState :=
  if (0 <? length (points pcd_object))%nat then
    let points_array := points pcd_object in
    let centroid_camera := np.mean0 points_array in
    let centroid_world := to_world_point stat_viewMat_inv centroid_camera in
    match get_oriented_bounding_box pcd_object with
    | inl obb =>
        let orientation_camera := R obb in
        let orientation_world :=
          to_world_rotation stat_viewMat_inv orientation_camera in
        let st := store obj_id
                    (pose_record centroid_camera orientation_camera
                                 centroid_world orientation_world (extent obb)) st in
        let st := print (PoseReport obj_id centroid_camera centroid_world
                                    orientation_world (extent obb)) st in
        let transformed_points :=
          List.map (to_world_point stat_viewMat_inv) (points pcd_object) in
        let st := show (PaintedCloud transformed_points (object_color obj_id)) st in
        let st := show (CoordinateFrame (Q2Qc (2 # 10)) centroid_world) st in
        show (WorldBox centroid_world orientation_world (extent obb)) st
    | inr e =>
        let st := print (ObbError obj_id e) st in
        store obj_id (fallback_record centroid_camera centroid_world) st
    end
  else st.

(** Lines 100-236: one iteration of [for obj_id in unique_ids]. *)
Definition process_object (st : FrameState) (obj_id : Z) : FrameState :=
  if (obj_id <=? 0)%Z then st
  else
    let st := print (Processing obj_id) st in
    let mask := np.eq_mask seg_s obj_id in
    if negb (np.any mask) then print (NoPixels obj_id) st
    else
      let pcd_object := object_cloud obj_id in
      if (length (points pcd_object) <? 10)%nat then
        print (TooFewPoints obj_id (length (points pcd_object))) st
      else
        let st := print (CloudSize obj_id (length (points pcd_object))) st in
        match filter_cloud pcd_object with
        | inr e => print (FilterError obj_id e) st
        | inl pcd_object => estimate_pose obj_id pcd_object st
        end.

(** Lines 86-241: the object loop of one frame and its summary. *)
Definition object_loop : FrameState :=
  let unique_ids := np.unique seg_s in
  let st := mkFrameState ∅ [] [CoordinateFrame (Q2Qc (5 # 10)) [0; 0; 0]]
                         [UniqueIds unique_ids] in
  let st := fold_left process_object unique_ids st in
  let st := print (Detected (size (timestep_object_poses st))) st in
  fold_left (fun st kv => print (ObjectAt (fst kv)
                                   (dict_get (snd kv) "position_world")) st)
            (items st) st.

End Frame.

(** Lines 69-241: the perception pass of one frame.  The inversion of the
    view matrix is outside every [try]. *)
Definition perceive_frame `{o3d : Open3D} `{linalg : LinAlg} (intrinsic : Intrinsic)
    (renders : RgbImage * DepthImage * SegImage) (viewMat : list Qc)
  : Raises FrameState :=
  let '(rgb_s, depth_s, seg_s) := renders in
  do stat_viewMat_array <- np.reshape44 viewMat;
  do stat_viewMat_inv <- inv stat_viewMat_array;
  ret (object_loop rgb_s depth_s seg_s intrinsic stat_viewMat_inv).

(** ** The run (lines 22-285) *)

Record RunState (S : Type) : Type := mkRunState
  { sim : S;
    all_object_poses : gmap string (gmap Z PoseDict);
    console : list Event }.
Arguments mkRunState {S}.
Arguments sim {S}.
Arguments all_object_poses {S}.
Arguments console {S}.

(** A [for] loop whose body may raise: the first exception ends the loop. *)
Fixpoint for_each {A St} (xs : list A) (body : A -> St -> Raises St) (st : St)
  : Raises St :=
  match xs with
  | [] => ret st
  | x :: xs' => do st' <- body x st; for_each xs' body st'
  end.

(** [f"{obj_name}_{tstep}_{i}"] *)
Definition frame_key (obj_name : string) (tstep i : nat) : string :=
  (obj_name +:+ "_" +:+ pretty tstep +:+ "_" +:+ pretty i)%string.

Section Run.

Context `{o3d : Open3D} `{linalg : LinAlg} {S : Type} `{simulator : Simulator S}.

Variable intrinsic : Intrinsic.

(** Lines 58-244: one iteration of [for i in range(10000)], up to the
    assignment to the run dictionary.  The viewer window and the control
    checks that follow (lines 246-281) do not write to the dictionary
    and are left out; an exception raised there would end the run as
    one raised at line 73 does. *)
Definition step_body (obj_name : string) (tstep i : nat) (rs : RunState S)
  : Raises (RunState S) :=
  let s := step (sim rs) in
  if negb (i mod 100 =? 0)%nat then
    ret (mkRunState s (all_object_poses rs) (console rs))
  else
    do fs <- perceive_frame intrinsic (get_static_renders s) (stat_viewMat s);
    ret (mkRunState s
           (<[frame_key obj_name tstep i := timestep_object_poses fs]>
              (all_object_poses rs))
           (console rs ++ stdout fs)).

(** Lines 41-281: one iteration of [for tstep in range(10)].  The robot
    prints after the reset are left out. *)
Definition trial_body (obj_name : string) (tstep : nat) (rs : RunState S)
  : Raises (RunState S) :=
  for_each (seq 0 10000) (step_body obj_name tstep)
           (mkRunState (reset obj_name (sim rs)) (all_object_poses rs) (console rs)).

(** Lines 40-281: one iteration of [for obj_name in obj_names]. *)
Definition object_body (obj_name : string) (rs : RunState S) : Raises (RunState S) :=
  for_each (seq 0 10) (trial_body obj_name) rs.

End Run.

(** [run_exp]: the dictionary it returns, or the exception that ends it. *)
Definition run_exp `{o3d : Open3D} `{linalg : LinAlg} {S : Type}
    `{simulator : Simulator S} (sim0 : S) (obj_names : list string)
  : Raises (gmap string (gmap Z PoseDict)) :=
  do intrinsic <- intrinsics_builder (projection_matrix sim0);
  do rs <- for_each obj_names (object_body intrinsic) (mkRunState sim0 ∅ []);
  ret (all_object_poses rs).

(** ** Shapes of view matrices *)

(** The bottom row is [0, 0, 0, 1]: the matrix maps homogeneous points of
    weight one to points of weight one. *)
Definition bottom_row_affine (M : np.mat) : Prop := nth 3 M [] = [0; 0; 0; 1].

(** The first three entries of the last column vanish. *)
Definition right_column_zero (M : np.mat) : Prop :=
  np.ix2 M 0 3 = 0 /\ np.ix2 M 1 3 = 0 /\ np.ix2 M 2 3 = 0.

(** A projective matrix, with a perspective row and a translation
    column: not a view transform. *)
Definition projective_viewMat : list Qc :=
  [1; 0; 0; 1;
   0; 1; 0; 0;
   0; 0; 1; 0;
   1; 0; 0; Qc_of_Z 2].

(** A rigid view matrix in the row-major layout: a quarter turn about z
    and a translation. *)
Definition rigid_viewMat : list Qc :=
  [0; -(1); 0; Qc_of_Z 3;
   1; 0; 0; Qc_of_Z 4;
   0; 0; 1; Qc_of_Z 5;
   0; 0; 0; 1].

(** ** Objects of a frame *)

(** The ids the object loop does not skip at line 101. *)
Definition object_ids (seg_s : SegImage) : list Z :=
  List.filter (fun obj_id => negb (obj_id <=? 0)%Z) (np.unique seg_s).

Definition total (ns : list nat) : nat := fold_right Nat.add 0%nat ns.

(** The frame state before the object loop has touched it. *)
Definition new_frame : FrameState := mkFrameState ∅ [] [] [].

(** The record lines 160-236 store for a non-empty filtered cloud. *)
Definition fitted_pose `{o3d : Open3D} (stat_viewMat_inv : np.mat)
    (pcd_object : PointCloud) : PoseDict :=
  let centroid_camera := np.mean0 (points pcd_object) in
  let centroid_world := to_world_point stat_viewMat_inv centroid_camera in
  match get_oriented_bounding_box pcd_object with
  | inl obb =>
      pose_record centroid_camera (R obb) centroid_world
                  (to_world_rotation stat_viewMat_inv (R obb)) (extent obb)
  | inr _ => fallback_record stat_viewMat_inv centroid_camera centroid_world
  end.

(** What one iteration of the object loop stores and prints, seen on a
    fresh frame state. *)
Definition object_pose `{o3d : Open3D} (rgb_s : RgbImage) (depth_s : DepthImage)
    (seg_s : SegImage) (intrinsic : Intrinsic) (stat_viewMat_inv : np.mat)
    (obj_id : Z) : option PoseDict :=
  timestep_object_poses
    (process_object rgb_s depth_s seg_s intrinsic stat_viewMat_inv new_frame obj_id)
  !! obj_id.

Definition object_prints `{o3d : Open3D} (rgb_s : RgbImage) (depth_s : DepthImage)
    (seg_s : SegImage) (intrinsic : Intrinsic) (stat_viewMat_inv : np.mat)
    (obj_id : Z) : list Event :=
  stdout (process_object rgb_s depth_s seg_s intrinsic stat_viewMat_inv new_frame obj_id).

(** ** A small Open3D, for concrete frames

    A model of the library calls, enough to run the pipeline on the
    frames below: pinhole back-projection of the pixels with positive
    depth, a voxel grid that averages the points of a cell, an outlier
    filter that drops the point of a one-point cloud (its mean neighbour
    distance is zero, and the library keeps a point only when that
    distance is positive) and keeps larger clouds whole, and a box fit
    that raises when the points lie in one plane, as the library does
    (its convex hull needs four points that span space), and returns
    the axis-aligned box otherwise, where the library returns a box
    along the principal axes. *)

Module toy.

Definition Qc_leb (a b : Qc) : bool := Qle_bool a b.

Definition RGBD : Type := (RgbImage * DepthImage)%type.

Definition pair_images (color : RgbImage) (depth : DepthImage)
    (depth_scale depth_trunc : Qc) (convert_rgb_to_intensity : bool) : RGBD :=
  (color,
   List.map (List.map (fun d => let z := d / depth_scale in
                                if Qc_leb depth_trunc z then 0 else z)) depth).

Definition pixel_point (k : Intrinsic) (v u : nat) (z : Qc) : np.vec :=
  [(Qc_of_Z (Z.of_nat u) - cx k) * z / fx k;
   (Qc_of_Z (Z.of_nat v) - cy k) * z / fy k;
   z].

Definition pixel_color (px : list Z) : np.vec :=
  List.map (fun c => Qc_of_Z c / Qc_of_Z 255) (firstn 3 px).

Definition back_project (rgbd : RGBD) (k : Intrinsic) : PointCloud :=
  let rows := combine (fst rgbd) (snd rgbd) in
  let cells :=
    concat (imap (fun v row =>
                    concat (imap (fun u pz =>
                                    if Qc_leb (snd pz) 0 then []
                                    else [(pixel_point k v u (snd pz),
                                           pixel_color (fst pz))])
                                 (combine (fst row) (snd row))))
                 rows) in
  mkPointCloud (List.map fst cells) (List.map snd cells).

Definition qmin (a b : Qc) : Qc := if Qc_leb a b then a else b.
Definition qmax (a b : Qc) : Qc := if Qc_leb a b then b else a.

Definition bound (pick : Qc -> Qc -> Qc) (P : np.mat) : np.vec :=
  match P with
  | [] => [0; 0; 0]
  | p :: P' => fold_right (zip_with pick) p P'
  end.

Definition voxel (size : Qc) (lo p : np.vec) : list Z :=
  zip_with (fun a l : Qc => Qfloor (this ((a - (l - size / Qc_of_Z 2)) / size))) p lo.

Definition voxel_grid (pcd : PointCloud) (voxel_size : Qc) : Raises PointCloud :=
  if Qc_leb voxel_size 0 then raise (Open3DError "voxel_size <= 0")
  else
    let lo := bound qmin (points pcd) in
    let tagged := combine (List.map (voxel voxel_size lo) (points pcd))
                          (combine (points pcd) (colors pcd)) in
    let cells := remove_dups (List.map fst tagged) in
    let members c := List.filter (fun t => bool_decide (fst t = c)) tagged in
    ret (mkPointCloud
           (List.map (fun c => np.mean0 (List.map (fun t => fst (snd t)) (members c))) cells)
           (List.map (fun c => np.mean0 (List.map (fun t => snd (snd t)) (members c))) cells)).

Definition drop_lone_point (pcd : PointCloud) (nb_neighbors : nat)
    (std_ratio : Qc) : Raises (PointCloud * list nat) :=
  if (nb_neighbors <? 1)%nat || Qc_leb std_ratio 0
  then raise (Open3DError "illegal input parameters")
  else match points pcd with
       | [_] => ret (mkPointCloud [] [], [])
       | _ => ret (pcd, seq 0 (length (points pcd)))
       end.

Definition vsub (a b : np.vec) : np.vec := zip_with Qcminus a b.

(** The volume spanned by three vectors. *)
Definition triple (a b c : np.vec) : Qc :=
  match a, b, c with
  | [a0; a1; a2], [b0; b1; b2], [c0; c1; c2] =>
      np.det3 a0 a1 a2 b0 b1 b2 c0 c1 c2
  | _, _, _ => 0
  end.

(** All points in one plane: no three of them span a volume with the
    first. *)
Definition coplanar (P : np.mat) : bool :=
  match P with
  | p0 :: P' =>
      forallb (fun a =>
        forallb (fun b =>
          forallb (fun c =>
            Qc_eq_bool (triple (vsub a p0) (vsub b p0) (vsub c p0)) 0) P') P') P'
  | [] => true
  end.

Definition fit_box (pcd : PointCloud) : Raises OrientedBoundingBox :=
  if coplanar (points pcd) then raise (Open3DError "initial simplex is flat")
  else
    let lo := bound qmin (points pcd) in
    let hi := bound qmax (points pcd) in
    ret (mkOBB (List.map (fun s => s / Qc_of_Z 2) (np.vadd lo hi)) np.eye3 (vsub hi lo)).

Definition o3d : Open3D :=
  Build_Open3D RGBD pair_images back_project voxel_grid drop_lone_point fit_box.

(** Intrinsics of the scenarios: fx = fy = 500, cx = cy = 2. *)
Definition intrinsic : Intrinsic :=
  mkIntrinsic 640 480 (Qc_of_Z 500) (Qc_of_Z 500) (Qc_of_Z 2) (Qc_of_Z 2).

Definition image {A} (rows cols : nat) (f : nat -> nat -> A) : list (list A) :=
  List.map (fun r => List.map (f r) (seq 0 cols)) (seq 0 rows).

(** Object 5 fills three rows of a 4 x 4 image, one tenth of a unit from
    the camera: twelve points, all in one voxel. *)
Definition near_seg : SegImage := image 4 4 (fun r _ => if (r <? 3)%nat then 5%Z else 0%Z).
Definition near_depth : DepthImage := image 4 4 (fun _ _ => Q2Qc (1 # 10)).
Definition near_rgb : RgbImage := image 4 4 (fun _ _ => [200; 100; 50]%Z).

(** Object 5 is a 2 x 2 block of a 4 x 4 image at depth 2. *)
Definition block_seg : SegImage :=
  image 4 4 (fun r c => if ((1 <=? r) && (r <=? 2) && (1 <=? c) && (c <=? 2))%nat
                        then 5%Z else 0%Z).
Definition block_depth : DepthImage := image 4 4 (fun _ _ => Qc_of_Z 2).

(** Object 7 is one row of twelve pixels at depth 10, above a row of
    background: twelve colinear points, one per voxel. *)
Definition line_seg : SegImage := image 2 12 (fun r _ => if (r =? 0)%nat then 7%Z else (-1)%Z).
Definition line_depth : DepthImage := image 2 12 (fun _ _ => Qc_of_Z 10).
Definition line_rgb : RgbImage := image 2 12 (fun _ _ => [200; 100; 50]%Z).

End toy.

(** ** Concrete frames and a concrete run *)

Module scene.

(** The value of a computation known not to raise. *)
Definition value {A} (dflt : A) (c : Raises A) : A :=
  match c with
  | inl a => a
  | inr _ => dflt
  end.

(** The frames of [toy], seen through the identity view matrix. *)
Definition near_frame : FrameState :=
  object_loop (o3d := toy.o3d) toy.near_rgb toy.near_depth toy.near_seg
              toy.intrinsic np.eye4.

Definition near_cloud : PointCloud :=
  object_cloud (o3d := toy.o3d) toy.near_rgb toy.near_depth toy.near_seg
               toy.intrinsic 5.

Definition block_frame : FrameState :=
  object_loop (o3d := toy.o3d) toy.near_rgb toy.block_depth toy.block_seg
              toy.intrinsic np.eye4.

Definition block_cloud : PointCloud :=
  object_cloud (o3d := toy.o3d) toy.near_rgb toy.block_depth toy.block_seg
               toy.intrinsic 5.

Definition line_frame : FrameState :=
  object_loop (o3d := toy.o3d) toy.line_rgb toy.line_depth toy.line_seg
              toy.intrinsic np.eye4.

Definition line_cloud : PointCloud :=
  object_cloud (o3d := toy.o3d) toy.line_rgb toy.line_depth toy.line_seg
               toy.intrinsic 7.

(** A depth image of a curved surface about 10 units away. *)
Definition curved_depth (rows cols : nat) : DepthImage :=
  toy.image rows cols
    (fun r c => Qc_of_Z 10 + Qc_of_Z (Z.of_nat (r * c)) / Qc_of_Z 100).

(** Object 3 fills a 3 x 4 image of the curved surface: twelve points,
    one per voxel, not in one plane. *)
Definition patch_seg : SegImage := toy.image 3 4 (fun _ _ => 3%Z).
Definition patch_depth : DepthImage := curved_depth 3 4.
Definition patch_rgb : RgbImage := toy.image 3 4 (fun _ _ => [200; 100; 50]%Z).

(** The inverse of the rigid view matrix. *)
Definition rigid_view : np.mat := value [] (np.reshape44 rigid_viewMat).
Definition rigid_view_inv : np.mat := value [] (np.linalg_inv rigid_view).

Definition patch_frame : FrameState :=
  object_loop (o3d := toy.o3d) patch_rgb patch_depth patch_seg
              toy.intrinsic rigid_view_inv.

Definition line_frame_rigid : FrameState :=
  object_loop (o3d := toy.o3d) toy.line_rgb toy.line_depth toy.line_seg
              toy.intrinsic rigid_view_inv.


Definition no_cloud : PointCloud := mkPointCloud [] [].

(** A projection matrix of sixteen numbers. *)
Definition projection : list Qc :=
  [Q2Qc (3 # 2); 0; 0; 0;
   0; Qc_of_Z 2; 0; 0;
   0; 0; -(1); -(1);
   0; 0; -(Q2Qc (1 # 5)); 0].

(** The zero matrix as a view matrix: singular, and the factorisation
    meets a zero pivot at once. *)
Definition singular_viewMat : list Qc := repeat 0 16.

(** A simulator that counts the steps since the last reset.  Its camera
    reports a singular view matrix at the first step after a reset and
    a rigid one afterwards. *)
Definition simulator : Simulator nat :=
  Build_Simulator nat
    (fun _ => projection)
    (fun s => if (s =? 1)%nat then singular_viewMat else rigid_viewMat)
    (fun _ _ => 0%nat)
    Datatypes.S
    (fun _ => (toy.line_rgb, toy.line_depth, toy.line_seg)).

End scene.
(** ** More about the objects of a frame *)

(** The geometries one iteration of the object loop hands to the viewer,
    seen on a fresh frame state. *)
Definition object_geometries `{o3d : Open3D} (rgb_s : RgbImage)
    (depth_s : DepthImage) (seg_s : SegImage) (intrinsic : Intrinsic)
    (stat_viewMat_inv : np.mat) (obj_id : Z) : list Geometry :=
  visualization_geometries
    (process_object rgb_s depth_s seg_s intrinsic stat_viewMat_inv new_frame obj_id).

(** The print of line 104. *)
Definition is_processing (e : Event) : bool :=
  match e with
  | Processing _ => true
  | _ => false
  end.

(** The lines of the summary (lines 239-241). *)
Definition is_summary (e : Event) : bool :=
  match e with
  | Detected _ | ObjectAt _ _ => true
  | _ => false
  end.

(** A record that carries the extents of a fitted box. *)
Definition boxed (pose : option PoseDict) : bool :=
  match pose with
  | Some d =>
      match dict_get d "dimensions" with
      | Some (PArr1 _) => true
      | _ => false
      end
  | None => false
  end.

Module frames.

(** Object 3 is a 3 x 4 patch of the curved surface and object 7 a row
    of twelve pixels at depth 10, side by side in a 3 x 16 image. *)
Definition pair_seg : SegImage :=
  toy.image 3 16 (fun r c => if (c <? 4)%nat then 3%Z
                             else if (r =? 0)%nat then 7%Z else 0%Z).
Definition pair_depth : DepthImage :=
  toy.image 3 16 (fun r c => if (c <? 4)%nat
                             then Qc_of_Z 10 + Qc_of_Z (Z.of_nat (r * c)) / Qc_of_Z 100
                             else Qc_of_Z 10).
Definition pair_rgb : RgbImage := toy.image 3 16 (fun _ _ => [200; 100; 50; 255]%Z).

Definition pair_frame : FrameState :=
  object_loop (o3d := toy.o3d) pair_rgb pair_depth pair_seg
              toy.intrinsic scene.rigid_view_inv.

(** The small Open3D with an outlier filter that always raises. *)
Definition failing_o3d : Open3D :=
  Build_Open3D toy.RGBD toy.pair_images toy.back_project toy.voxel_grid
               (fun _ _ _ => raise (Open3DError "outlier removal failed"))
               toy.fit_box.

End frames.

(** ** Masking and origin removal *)

(** A point with a non-zero coordinate: what line 140 keeps. *)
Definition off_origin (p : np.vec) : bool :=
  negb (forallb (fun x => Qc_eq_bool x 0) p).

(** Lines 107-133: the cloud Open3D builds for an object, before the
    origin points are removed. *)
Definition raw_cloud `{o3d : Open3D} (rgb_s : RgbImage) (depth_s : DepthImage)
    (seg_s : SegImage) (intrinsic : Intrinsic) (obj_id : Z) : PointCloud :=
  let mask := np.eq_mask seg_s obj_id in
  create_from_rgbd_image
    (create_from_color_and_depth (mask_rgb rgb_s mask) (mask_depth depth_s mask)
                                 1 (Qc_of_Z 1000) false)
    intrinsic.

(** ** Counting and the identity view *)

(** The length of an array as a float: the divisor of [np.mean]. *)
Definition Qc_of_nat (n : nat) : Qc := Q2Qc (inject_Z (Z.of_nat n)).

(** The identity as a view matrix of sixteen numbers. *)
Definition identity_viewMat : list Qc :=
  [1; 0; 0; 0;
   0; 1; 0; 0;
   0; 0; 1; 0;
   0; 0; 0; 1].

(** ** The frames of a run *)

(** The steps of a trial at which line 63 lets the perception run. *)
Definition perceived_steps : list nat :=
  List.filter (fun i => (i mod 100 =? 0)%nat) (seq 0 10000).

(** The keys line 244 writes during one trial, one object, a whole run. *)
Definition trial_keys (obj_name : string) (tstep : nat) : list string :=
  List.map (frame_key obj_name tstep) perceived_steps.

Definition object_keys (obj_name : string) : list string :=
  flat_map (trial_keys obj_name) (seq 0 10).

Definition run_keys (obj_names : list string) : list string :=
  flat_map object_keys obj_names.

Module runs.

(** A simulator with a rigid camera that sees the 2 x 2 block. *)
Definition steady_simulator : Simulator nat :=
  Build_Simulator nat
    (fun _ => scene.projection)
    (fun _ => rigid_viewMat)
    (fun _ _ => 0%nat)
    Datatypes.S
    (fun _ => (toy.near_rgb, toy.block_depth, toy.block_seg)).

(** A simulator whose projection matrix lacks an entry. *)
Definition short_projection_simulator : Simulator nat :=
  Build_Simulator nat
    (fun _ => firstn 15 scene.projection)
    (fun _ => rigid_viewMat)
    (fun _ _ => 0%nat)
    Datatypes.S
    (fun _ => (toy.near_rgb, toy.block_depth, toy.block_seg)).

End runs.

(** The separator of the parts of a frame key. *)
Definition underscore : ascii := "_"%char.

(** ** Proof steps for arrays of rationals *)

(** Equality of two rank-1 arrays, entry by entry. *)
Ltac vec_eq := repeat (apply (f_equal2 (@cons Qc))); try reflexivity.

(** A field equation whose only denominator is the determinant [Hd]
    says is non-zero. *)
Ltac by_field Hd :=
  field; let Hc := fresh "Hc" in
         intro Hc; apply Hd; (etransitivity; [|exact Hc]); ring.

(** * Properties *)

(** ** Scalars and the exception monad *)

Lemma Qc_eq_bool_false (x y : Qc) : Qc_eq_bool x y = false -> x <> y.
Proof.
  unfold Qc_eq_bool.
  destruct (Qcanon.Qc_eq_dec x y); intros H; [discriminate H | assumption].
Qed.

Lemma Qc_eq_bool_true (x y : Qc) : Qc_eq_bool x y = true -> x = y.
Proof. apply Qc_eq_bool_correct. Qed.

Lemma array_equal_true (a b : np.vec) : np.array_equal a b = true -> a = b.
Proof.
  revert b; induction a as [|x a IH]; intros [|y b]; simpl; try discriminate; auto.
  intros [Hxy Hab]%andb_prop. f_equal; [now apply Qc_eq_bool_true | now apply IH].
Qed.

Lemma array_equal_false (a b : np.vec) : np.array_equal a b = false -> a <> b.
Proof.
  revert b; induction a as [|x a IH]; intros [|y b]; simpl; try discriminate.
  intros H Heq; injection Heq as -> ->.
  apply andb_false_iff in H as [H|H].
  - now apply Qc_eq_bool_false in H.
  - now apply IH in H.
Qed.

(** ** Reshaping *)

Lemma reshape44_inl (xs : list Qc) (M : np.mat) :
  np.reshape44 xs = inl M ->
  exists a0 a1 a2 a3 b0 b1 b2 b3 c0 c1 c2 c3 d0 d1 d2 d3,
    xs = [a0; a1; a2; a3; b0; b1; b2; b3; c0; c1; c2; c3; d0; d1; d2; d3] /\
    M = [[a0; a1; a2; a3]; [b0; b1; b2; b3]; [c0; c1; c2; c3]; [d0; d1; d2; d3]].
Proof.
  unfold np.reshape44. intros H.
  do 16 (destruct xs as [|? xs]; [discriminate H|]).
  destruct xs; [|discriminate H]. injection H as <-.
  repeat eexists.
Qed.

Lemma length16 (xs : list Qc) :
  length xs = 16%nat ->
  exists a0 a1 a2 a3 b0 b1 b2 b3 c0 c1 c2 c3 d0 d1 d2 d3,
    xs = [a0; a1; a2; a3; b0; b1; b2; b3; c0; c1; c2; c3; d0; d1; d2; d3].
Proof.
  intros H.
  do 16 (destruct xs as [|? xs]; [discriminate H|]).
  destruct xs; [|discriminate H]. repeat eexists.
Qed.

Lemma has_shape_44 (M : np.mat) :
  np.has_shape 4 4 M ->
  exists a0 a1 a2 a3 b0 b1 b2 b3 c0 c1 c2 c3 d0 d1 d2 d3,
    M = [[a0; a1; a2; a3]; [b0; b1; b2; b3]; [c0; c1; c2; c3]; [d0; d1; d2; d3]].
Proof.
  intros [Hr Hc].
  do 4 (destruct M as [|? M]; [discriminate Hr|]).
  destruct M; [|discriminate Hr].
  repeat match goal with
         | H : Forall _ (_ :: _) |- _ => apply Forall_cons_iff in H as [? H]
         end.
  repeat match goal with
         | H : length ?l = 4%nat |- _ =>
             do 4 (destruct l as [|? l]; [discriminate H|]);
             destruct l; [clear H|discriminate H]
         end.
  repeat eexists.
Qed.

Lemma has_shape_33 (M : np.mat) :
  np.has_shape 3 3 M ->
  exists a0 a1 a2 b0 b1 b2 c0 c1 c2,
    M = [[a0; a1; a2]; [b0; b1; b2]; [c0; c1; c2]].
Proof.
  intros [Hr Hc].
  do 3 (destruct M as [|? M]; [discriminate Hr|]).
  destruct M; [|discriminate Hr].
  repeat match goal with
         | H : Forall _ (_ :: _) |- _ => apply Forall_cons_iff in H as [? H]
         end.
  repeat match goal with
         | H : length ?l = 3%nat |- _ =>
             do 3 (destruct l as [|? l]; [discriminate H|]);
             destruct l; [clear H|discriminate H]
         end.
  repeat eexists.
Qed.

Lemma reshape44_shape (xs : list Qc) (M : np.mat) :
  np.reshape44 xs = inl M -> np.has_shape 4 4 M.
Proof.
  intros H.
  apply reshape44_inl in H
    as (a0&a1&a2&a3&b0&b1&b2&b3&c0&c1&c2&c3&d0&d1&d2&d3&_&->).
  split; [reflexivity|]. repeat constructor.
Qed.

(** ** Intrinsics *)

(** C8.  For a projection matrix of sixteen numbers, read row-major as a
    4 x 4 array, the intrinsics builder does not raise and returns
    width 640, height 480, and fx, fy, cx, cy taken from positions
    (0,0), (1,1), (0,2), (1,2) of the array; the result depends on
    nothing else. *)
Theorem intrinsics_builder_reads_projection (projection : list Qc) :
  length projection = 16%nat ->
  exists M : np.mat,
    np.reshape44 projection = inl M /\
    (forall r c : nat, (r < 4)%nat -> (c < 4)%nat ->
       np.ix2 M r c = nth (4 * r + c) projection 0) /\
    intrinsics_builder projection =
      inl (mkIntrinsic 640 480 (np.ix2 M 0 0) (np.ix2 M 1 1)
                       (np.ix2 M 0 2) (np.ix2 M 1 2)).
Proof.
  intros H.
  apply length16 in H
    as (a0&a1&a2&a3&b0&b1&b2&b3&c0&c1&c2&c3&d0&d1&d2&d3&->).
  eexists; split; [reflexivity|]; split; [|reflexivity].
  intros r c Hr Hc.
  destruct r as [|[|[|[|r]]]]; [| | | |lia];
    (destruct c as [|[|[|[|c]]]]; [| | | |lia]); reflexivity.
Qed.

Lemma intrinsics_builder_reads_projection_witness :
  length scene.projection = 16%nat /\
  exists M : np.mat,
    np.reshape44 scene.projection = inl M /\
    (forall r c : nat, (r < 4)%nat -> (c < 4)%nat ->
       np.ix2 M r c = nth (4 * r + c) scene.projection 0) /\
    intrinsics_builder scene.projection =
      inl (mkIntrinsic 640 480 (np.ix2 M 0 0) (np.ix2 M 1 1)
                       (np.ix2 M 0 2) (np.ix2 M 1 2)).
Proof.
  split; [reflexivity|].
  apply (intrinsics_builder_reads_projection scene.projection). reflexivity.
Defined.

(** ** The frame transformer *)

(** C5.  With the 4 x 4 world-from-camera matrix [M], a camera-frame
    position [p] goes to the first three components of [M] times the
    homogeneous vector [p; 1], and a camera-frame rotation [Rc] goes to
    the top-left 3 x 3 block of [M] times [Rc]. *)
Theorem frame_transformer_formulas (M : np.mat) (p : np.vec) (Rc : np.mat) :
  np.has_shape 4 4 M -> length p = 3%nat -> np.has_shape 3 3 Rc ->
  (to_world_point M p = firstn 3 (np.dot_mv M (p ++ [1])) /\
   length (to_world_point M p) = 3%nat /\
   forall i : nat, (i < 3)%nat ->
     nth i (to_world_point M p) 0 =
       np.ix2 M i 0 * nth 0 p 0 + np.ix2 M i 1 * nth 1 p 0
       + np.ix2 M i 2 * nth 2 p 0 + np.ix2 M i 3 * 1) /\
  (to_world_rotation M Rc = np.dot_mm (np.block33 M) Rc /\
   np.has_shape 3 3 (to_world_rotation M Rc) /\
   forall i j : nat, (i < 3)%nat -> (j < 3)%nat ->
     np.ix2 (to_world_rotation M Rc) i j =
       np.ix2 M i 0 * np.ix2 Rc 0 j + np.ix2 M i 1 * np.ix2 Rc 1 j
       + np.ix2 M i 2 * np.ix2 Rc 2 j).
Proof.
  intros HM Hp HR.
  apply has_shape_44 in HM
    as (a0&a1&a2&a3&b0&b1&b2&b3&c0&c1&c2&c3&d0&d1&d2&d3&->).
  apply has_shape_33 in HR as (r0&r1&r2&s0&s1&s2&t0&t1&t2&->).
  destruct p as [|x [|y [|z [|? ?]]]]; try discriminate Hp.
  split; [split; [reflexivity|split; [reflexivity|]]
         |split; [reflexivity|split; [split; [reflexivity|repeat constructor]|]]].
  - intros i Hi. destruct i as [|[|[|i]]]; [| | |lia];
      cbn -[Qcplus Qcmult]; ring.
  - intros i j Hi Hj.
    destruct i as [|[|[|i]]]; [| | |lia];
      (destruct j as [|[|[|j]]]; [| | |lia]); cbn -[Qcplus Qcmult]; ring.
Qed.

Lemma frame_transformer_formulas_witness :
  let M := [[0; -(1); 0; Qc_of_Z 3]; [1; 0; 0; Qc_of_Z 4];
            [0; 0; 1; Qc_of_Z 5]; [0; 0; 0; 1]] in
  let p := [Qc_of_Z 1; Qc_of_Z 2; Qc_of_Z 3] in
  (np.has_shape 4 4 M /\ length p = 3%nat /\ np.has_shape 3 3 np.eye3) /\
  (to_world_point M p = firstn 3 (np.dot_mv M (p ++ [1])) /\
   length (to_world_point M p) = 3%nat /\
   forall i : nat, (i < 3)%nat ->
     nth i (to_world_point M p) 0 =
       np.ix2 M i 0 * nth 0 p 0 + np.ix2 M i 1 * nth 1 p 0
       + np.ix2 M i 2 * nth 2 p 0 + np.ix2 M i 3 * 1) /\
  (to_world_rotation M np.eye3 = np.dot_mm (np.block33 M) np.eye3 /\
   np.has_shape 3 3 (to_world_rotation M np.eye3) /\
   forall i j : nat, (i < 3)%nat -> (j < 3)%nat ->
     np.ix2 (to_world_rotation M np.eye3) i j =
       np.ix2 M i 0 * np.ix2 np.eye3 0 j + np.ix2 M i 1 * np.ix2 np.eye3 1 j
       + np.ix2 M i 2 * np.ix2 np.eye3 2 j).
Proof.
  intros M p.
  assert (HM : np.has_shape 4 4 M) by (split; [reflexivity|repeat constructor]).
  assert (Hp : length p = 3%nat) by reflexivity.
  assert (HR : np.has_shape 3 3 np.eye3) by (split; [reflexivity|repeat constructor]).
  split; [auto|].
  exact (frame_transformer_formulas M p np.eye3 HM Hp HR).
Defined.

(** ** The inverse of the view matrix *)

Lemma linalg_inv_inl (M Minv : np.mat) :
  np.linalg_inv M = inl Minv ->
  np.det4 M <> 0 /\
  Minv = List.map (List.map (fun x => x / np.det4 M)) (np.adj4 M).
Proof.
  unfold np.linalg_inv. destruct (Qc_eq_bool _ 0) eqn:Hd; [discriminate|].
  intros H; injection H as <-. split; [now apply Qc_eq_bool_false|reflexivity].
Qed.

Lemma linalg_inv_inr (M : np.mat) (e : Exn) :
  np.linalg_inv M = inr e -> np.det4 M = 0 /\ e = LinAlgError.
Proof.
  unfold np.linalg_inv. destruct (Qc_eq_bool _ 0) eqn:Hd; [|discriminate].
  intros H; injection H as <-. split; [now apply Qc_eq_bool_true|reflexivity].
Qed.

(** In exact arithmetic the array [np.linalg.inv] returns is a two-sided
    inverse. *)
Lemma linalg_inv_right (M Minv : np.mat) :
  np.has_shape 4 4 M -> np.linalg_inv M = inl Minv ->
  np.dot_mm M Minv = np.eye4.
Proof.
  intros HM HI.
  apply has_shape_44 in HM
    as (a0&a1&a2&a3&b0&b1&b2&b3&c0&c1&c2&c3&d0&d1&d2&d3&->).
  apply linalg_inv_inl in HI as [Hd ->].
  cbn -[Qcplus Qcmult Qcdiv Qcopp Qcminus] in *. unfold np.det3 in *.
  unfold np.eye4.
  repeat (apply (f_equal2 (@cons (list Qc)))); try reflexivity;
    vec_eq; by_field Hd.
Qed.

Lemma linalg_inv_left (M Minv : np.mat) :
  np.has_shape 4 4 M -> np.linalg_inv M = inl Minv ->
  np.dot_mm Minv M = np.eye4.
Proof.
  intros HM HI.
  apply has_shape_44 in HM
    as (a0&a1&a2&a3&b0&b1&b2&b3&c0&c1&c2&c3&d0&d1&d2&d3&->).
  apply linalg_inv_inl in HI as [Hd ->].
  cbn -[Qcplus Qcmult Qcdiv Qcopp Qcminus] in *. unfold np.det3 in *.
  unfold np.eye4.
  repeat (apply (f_equal2 (@cons (list Qc)))); try reflexivity;
    vec_eq; by_field Hd.
Qed.

Lemma value_inl {A} (dflt : A) (c : Raises A) :
  (forall e, c <> inr e) -> c = inl (scene.value dflt c).
Proof. destruct c as [a|e]; [reflexivity|]. intros H. now destruct (H e). Qed.

Lemma rigid_view_inv_ok : np.linalg_inv scene.rigid_view = inl scene.rigid_view_inv.
Proof. apply value_inl. intros e He. vm_compute in He. discriminate He. Qed.

(** ** Round trip through the view matrix *)

(** The transform keeps the first three components and never divides
    by the fourth.  For a matrix that is no view transform, with a
    perspective row and a translation column, the camera-frame point
    (1, 0, 0) goes to the world and comes back as (2, 0, 0). *)
Lemma round_trip_fails_for_projective_viewMat :
  exists V Minv : np.mat,
    np.reshape44 projective_viewMat = inl V /\
    np.linalg_inv V = inl Minv /\
    to_world_point V (to_world_point Minv [1; 0; 0]) = [Qc_of_Z 2; 0; 0] /\
    to_world_point V (to_world_point Minv [1; 0; 0]) <> [1; 0; 0].
Proof.
  eexists; eexists. split; [reflexivity|]. split; [reflexivity|].
  split; [apply array_equal_true|apply array_equal_false]; vm_compute; reflexivity.
Qed.

(** C6.  For an invertible view matrix, a camera-frame point taken to
    the world frame with the inverse and back with the view matrix is
    the original point.  A view matrix is a rigid transform: its bottom
    row is [0, 0, 0, 1].  The round trip also holds when the first
    three entries of the last column are zero. *)
Theorem round_trip_affine_viewMat (viewMat : list Qc) (V Minv : np.mat) (p : np.vec) :
  np.reshape44 viewMat = inl V ->
  np.linalg_inv V = inl Minv ->
  length p = 3%nat ->
  bottom_row_affine V \/ right_column_zero V ->
  to_world_point V (to_world_point Minv p) = p.
Proof.
  intros HV HI Hp Hs.
  apply reshape44_inl in HV
    as (a0&a1&a2&a3&b0&b1&b2&b3&c0&c1&c2&c3&d0&d1&d2&d3&_&->).
  destruct p as [|x [|y [|z [|? ?]]]]; try discriminate Hp.
  apply linalg_inv_inl in HI as [Hd ->].
  destruct Hs as [Hs|(H0&H1&H2)].
  - unfold bottom_row_affine in Hs. simpl in Hs. injection Hs as -> -> -> ->.
    cbn -[Qcplus Qcmult Qcdiv Qcopp Qcminus] in *. unfold np.det3 in *.
    vec_eq; by_field Hd.
  - unfold np.ix2 in H0, H1, H2; simpl in H0, H1, H2. subst a3 b3 c3.
    cbn -[Qcplus Qcmult Qcdiv Qcopp Qcminus] in *. unfold np.det3 in *.
    vec_eq; by_field Hd.
Qed.

Lemma round_trip_affine_viewMat_witness :
  let p := [Qc_of_Z 1; Qc_of_Z 2; Qc_of_Z 3] in
  (np.reshape44 rigid_viewMat = inl scene.rigid_view /\
   np.linalg_inv scene.rigid_view = inl scene.rigid_view_inv /\
   length p = 3%nat /\
   (bottom_row_affine scene.rigid_view \/ right_column_zero scene.rigid_view)) /\
  to_world_point scene.rigid_view (to_world_point scene.rigid_view_inv p) = p.
Proof.
  intros p.
  assert (HV : np.reshape44 rigid_viewMat = inl scene.rigid_view) by reflexivity.
  assert (HI := rigid_view_inv_ok).
  assert (Hp : length p = 3%nat) by reflexivity.
  assert (Hs : bottom_row_affine scene.rigid_view \/ right_column_zero scene.rigid_view)
    by (left; reflexivity).
  split; [auto|].
  exact (round_trip_affine_viewMat rigid_viewMat scene.rigid_view
           scene.rigid_view_inv p HV HI Hp Hs).
Defined.

(** ** Masks *)

Lemma insert_sorted_In (x y : Z) (l : list Z) :
  In y (np.insert_sorted x l) <-> y = x \/ In y l.
Proof.
  induction l as [|z l IH]; simpl.
  - intuition.
  - destruct (Z.ltb_spec x z); [simpl; intuition|].
    destruct (Z.eqb_spec x z); simpl; [subst; intuition|].
    rewrite IH. intuition.
Qed.

Lemma insert_sorted_sorted (x : Z) (l : list Z) :
  StronglySorted Z.lt l -> StronglySorted Z.lt (np.insert_sorted x l).
Proof.
  induction 1 as [|z l Hl IH Hz]; simpl.
  - repeat constructor.
  - destruct (Z.ltb_spec x z).
    + constructor; [constructor; assumption|].
      constructor; [assumption|].
      eapply List.Forall_impl; [|exact Hz]. simpl; intros; lia.
    + destruct (Z.eqb_spec x z); [constructor; assumption|].
      constructor; [assumption|].
      apply List.Forall_forall. intros y Hy. apply insert_sorted_In in Hy as [->|Hy].
      * lia.
      * rewrite List.Forall_forall in Hz. now apply Hz.
Qed.

Lemma unique_In (a : list (list Z)) (v : Z) :
  In v (np.unique a) <-> In v (concat a).
Proof.
  unfold np.unique. induction (concat a) as [|x l IH]; simpl; [tauto|].
  rewrite insert_sorted_In, IH. intuition.
Qed.

Lemma unique_sorted (a : list (list Z)) : StronglySorted Z.lt (np.unique a).
Proof.
  unfold np.unique. induction (concat a) as [|x l IH]; simpl.
  - constructor.
  - now apply insert_sorted_sorted.
Qed.

Lemma sorted_lt_NoDup (l : list Z) : StronglySorted Z.lt l -> List.NoDup l.
Proof.
  induction 1 as [|z l Hl IH Hz]; constructor; [|assumption].
  intros Hin. rewrite List.Forall_forall in Hz. specialize (Hz _ Hin). lia.
Qed.

Lemma unique_NoDup (a : list (list Z)) : List.NoDup (np.unique a).
Proof. apply sorted_lt_NoDup, unique_sorted. Qed.

Lemma np_pixel_In {A} (a : list (list A)) (v : A) :
  In v (concat a) <-> exists r c, np.pixel a r c = Some v.
Proof.
  unfold np.pixel. rewrite in_concat. split.
  - intros (row & Hrow & Hv).
    apply In_nth_error in Hrow as [r Hr]. apply In_nth_error in Hv as [c Hc].
    exists r, c. now rewrite Hr.
  - intros (r & c & H). destruct (nth_error a r) as [row|] eqn:Hr; [|discriminate].
    exists row. split; eapply nth_error_In; eassumption.
Qed.

Lemma pixel_eq_mask (seg_s : SegImage) (obj_id : Z) (r c : nat) :
  np.pixel (np.eq_mask seg_s obj_id) r c =
  option_map (fun v => (v =? obj_id)%Z) (np.pixel seg_s r c).
Proof.
  unfold np.pixel, np.eq_mask. rewrite nth_error_map.
  destruct (nth_error seg_s r) as [row|]; simpl; [|reflexivity].
  now rewrite nth_error_map.
Qed.

Lemma count_eq_mask (seg_s : SegImage) (obj_id : Z) :
  np.count_nonzero (np.eq_mask seg_s obj_id) =
  length (List.filter (fun v => (v =? obj_id)%Z) (concat seg_s)).
Proof.
  unfold np.count_nonzero, np.eq_mask. rewrite <- concat_map.
  induction (concat seg_s) as [|x l IH]; simpl; [reflexivity|].
  destruct (x =? obj_id)%Z; simpl; now rewrite IH.
Qed.

Lemma total_hits_NoDup (ids : list Z) (x : Z) :
  List.NoDup ids ->
  total (List.map (fun i => if (x =? i)%Z then 1%nat else 0%nat) ids) =
  if existsb (Z.eqb x) ids then 1%nat else 0%nat.
Proof.
  induction 1 as [|i ids Hi Hnd IH]; simpl; [reflexivity|].
  rewrite IH. destruct (Z.eqb_spec x i) as [->|Hne]; simpl; [|reflexivity].
  destruct (existsb (Z.eqb i) ids) eqn:E; [|reflexivity].
  apply existsb_exists in E as (j & Hj & Hij). apply Z.eqb_eq in Hij. subst j.
  contradiction.
Qed.

Lemma total_counts (ids : list Z) (flat : list Z) :
  List.NoDup ids ->
  total (List.map (fun i => length (List.filter (fun v => (v =? i)%Z) flat)) ids) =
  length (List.filter (fun v => existsb (Z.eqb v) ids) flat).
Proof.
  intros Hnd. induction flat as [|x flat IH]; simpl.
  - clear Hnd. induction ids; simpl; auto.
  - transitivity
      (total (List.map (fun i => if (x =? i)%Z then 1%nat else 0%nat) ids) +
       total (List.map (fun i => length (List.filter (fun v => (v =? i)%Z) flat)) ids))%nat.
    + clear. induction ids as [|i ids IH]; simpl; [reflexivity|].
      rewrite IH. destruct (x =? i)%Z; simpl; lia.
    + rewrite IH, total_hits_NoDup by assumption.
      destruct (existsb (Z.eqb x) ids); reflexivity.
Qed.

Lemma object_ids_In (seg_s : SegImage) (v : Z) :
  In v (object_ids seg_s) <-> In v (concat seg_s) /\ (0 < v)%Z.
Proof.
  unfold object_ids. rewrite filter_In, unique_In.
  destruct (Z.leb_spec v 0); simpl; intuition (try lia; try discriminate).
Qed.

(** C7.  For a segmentation image, a pixel lies in the mask of some
    object id (a distinct value greater than 0) exactly when it is a
    foreground pixel; a pixel lies in the masks of at most one id; the
    ids are distinct; and the mask sizes add up to the number of
    foreground pixels. *)
Theorem object_masks_partition_foreground (seg_s : SegImage) :
  (forall r c : nat,
     (exists obj_id : Z, In obj_id (object_ids seg_s) /\
                         np.pixel (np.eq_mask seg_s obj_id) r c = Some true)
     <-> (exists v : Z, np.pixel seg_s r c = Some v /\ (0 < v)%Z)) /\
  (forall (id1 id2 : Z) (r c : nat),
     np.pixel (np.eq_mask seg_s id1) r c = Some true ->
     np.pixel (np.eq_mask seg_s id2) r c = Some true -> id1 = id2) /\
  List.NoDup (object_ids seg_s) /\
  total (List.map (fun obj_id => np.count_nonzero (np.eq_mask seg_s obj_id))
                  (object_ids seg_s)) =
  np.count_nonzero (List.map (List.map (fun v => (0 <? v)%Z)) seg_s).
Proof.
  split; [|split; [|split]].
  - intros r c. split.
    + intros (obj_id & Hin & Hpx). rewrite pixel_eq_mask in Hpx.
      destruct (np.pixel seg_s r c) as [v|]; [|discriminate].
      injection Hpx as Hv. apply Z.eqb_eq in Hv. subst v.
      apply object_ids_In in Hin as [_ Hpos]. eauto.
    + intros (v & Hpx & Hpos). exists v. split.
      * apply object_ids_In. split; [|assumption]. apply np_pixel_In; eauto.
      * rewrite pixel_eq_mask, Hpx. simpl. now rewrite Z.eqb_refl.
  - intros id1 id2 r c H1 H2. rewrite pixel_eq_mask in H1, H2.
    destruct (np.pixel seg_s r c) as [v|]; [|discriminate].
    injection H1 as H1; injection H2 as H2.
    apply Z.eqb_eq in H1, H2. congruence.
  - apply List.NoDup_filter, unique_NoDup.
  - erewrite map_ext by (intros; apply count_eq_mask).
    rewrite total_counts by apply List.NoDup_filter, unique_NoDup.
    unfold np.count_nonzero. rewrite <- concat_map.
    assert (Hflat : forall x, In x (concat seg_s) ->
              existsb (Z.eqb x) (object_ids seg_s) = (0 <? x)%Z).
    { intros x Hx. destruct (Z.ltb_spec 0 x) as [Hpos|Hneg].
      - apply existsb_exists. exists x. split; [|apply Z.eqb_refl].
        apply object_ids_In. auto.
      - destruct (existsb _ _) eqn:E; [|reflexivity].
        apply existsb_exists in E as (j & Hj & Hij). apply Z.eqb_eq in Hij. subst j.
        apply object_ids_In in Hj. lia. }
    induction (concat seg_s) as [|x l IH]; simpl; [reflexivity|].
    rewrite Hflat by (now left).
    destruct (0 <? x)%Z; simpl; rewrite IH; auto; intros; apply Hflat; now right.
Qed.

(** ** The object loop *)

(** ** Centroids and world images, entry by entry *)

(** The sums [np.mean] divides: one per column of an n x 3 array. *)
Lemma column_sums (P : np.mat) :
  Forall (fun p => length p = 3%nat) P ->
  fold_right np.vadd [0; 0; 0] P =
  [fold_right Qcplus 0 (List.map (fun p => nth 0 p 0) P);
   fold_right Qcplus 0 (List.map (fun p => nth 1 p 0) P);
   fold_right Qcplus 0 (List.map (fun p => nth 2 p 0) P)].
Proof.
  induction 1 as [|p P Hp _ IH]; [reflexivity|].
  destruct p as [|x [|y [|z [|? ?]]]]; try discriminate Hp.
  cbn [fold_right List.map]. rewrite IH. reflexivity.
Qed.

(** The centroid of an n x 3 array: each entry is the sum of a column
    over the number of rows. *)
Lemma mean0_entries (P : np.mat) :
  Forall (fun p => length p = 3%nat) P ->
  length (np.mean0 P) = 3%nat /\
  forall k : nat, (k < 3)%nat ->
    nth k (np.mean0 P) 0 =
    fold_right Qcplus 0 (List.map (fun p => nth k p 0) P)
    / Q2Qc (inject_Z (Z.of_nat (length P))).
Proof.
  intros HP. unfold np.mean0. rewrite (column_sums P HP).
  split; [reflexivity|].
  intros k Hk. destruct k as [|[|[|k]]]; [| | |lia]; reflexivity.
Qed.

Lemma to_world_point_entries (M : np.mat) (p : np.vec) :
  np.has_shape 4 4 M -> length p = 3%nat ->
  length (to_world_point M p) = 3%nat /\
  forall i : nat, (i < 3)%nat ->
    nth i (to_world_point M p) 0 =
      np.ix2 M i 0 * nth 0 p 0 + np.ix2 M i 1 * nth 1 p 0
      + np.ix2 M i 2 * nth 2 p 0 + np.ix2 M i 3.
Proof.
  intros HM Hp.
  apply has_shape_44 in HM
    as (a0&a1&a2&a3&b0&b1&b2&b3&c0&c1&c2&c3&d0&d1&d2&d3&->).
  destruct p as [|x [|y [|z [|? ?]]]]; try discriminate Hp.
  split; [reflexivity|].
  intros i Hi. destruct i as [|[|[|i]]]; [| | |lia]; cbn -[Qcplus Qcmult]; ring.
Qed.

Lemma to_world_rotation_entries (M Rc : np.mat) :
  np.has_shape 4 4 M -> np.has_shape 3 3 Rc ->
  np.has_shape 3 3 (to_world_rotation M Rc) /\
  forall i j : nat, (i < 3)%nat -> (j < 3)%nat ->
    np.ix2 (to_world_rotation M Rc) i j =
      np.ix2 M i 0 * np.ix2 Rc 0 j + np.ix2 M i 1 * np.ix2 Rc 1 j
      + np.ix2 M i 2 * np.ix2 Rc 2 j.
Proof.
  intros HM HR.
  apply has_shape_44 in HM
    as (a0&a1&a2&a3&b0&b1&b2&b3&c0&c1&c2&c3&d0&d1&d2&d3&->).
  apply has_shape_33 in HR as (r0&r1&r2&s0&s1&s2&t0&t1&t2&->).
  split; [split; [reflexivity|repeat constructor]|].
  intros i j Hi Hj.
  destruct i as [|[|[|i]]]; [| | |lia];
    (destruct j as [|[|[|j]]]; [| | |lia]); cbn -[Qcplus Qcmult]; ring.
Qed.

Lemma Forall_of_forallb {A} (f : A -> bool) (P : A -> Prop) (l : list A) :
  (forall x, f x = true -> P x) -> forallb f l = true -> Forall P l.
Proof.
  intros Hf Hl. apply List.Forall_forall. intros x Hx.
  rewrite forallb_forall in Hl. auto.
Qed.

Section FrameProperties.

Context `{o3d : Open3D} `{linalg : LinAlg}.
Variables (rgb_s : RgbImage) (depth_s : DepthImage) (seg_s : SegImage).
Variable intrinsic : Intrinsic.
Variable stat_viewMat_inv : np.mat.

Local Abbreviation cloud := (object_cloud rgb_s depth_s seg_s intrinsic).
Local Abbreviation process :=
  (process_object rgb_s depth_s seg_s intrinsic stat_viewMat_inv).
Local Abbreviation pose_of := (object_pose rgb_s depth_s seg_s intrinsic stat_viewMat_inv).
Local Abbreviation prints_of :=
  (object_prints rgb_s depth_s seg_s intrinsic stat_viewMat_inv).
Local Abbreviation frame := (object_loop rgb_s depth_s seg_s intrinsic stat_viewMat_inv).

Lemma estimate_pose_poses (obj_id : Z) (pcd : PointCloud) (st : FrameState) :
  timestep_object_poses (estimate_pose stat_viewMat_inv obj_id pcd st) =
  if (0 <? length (points pcd))%nat
  then <[obj_id := fitted_pose stat_viewMat_inv pcd]> (timestep_object_poses st)
  else timestep_object_poses st.
Proof.
  unfold estimate_pose, fitted_pose.
  destruct (0 <? length (points pcd))%nat; [|reflexivity].
  destruct (get_oriented_bounding_box pcd); reflexivity.
Qed.

Lemma estimate_pose_stdout (obj_id : Z) (pcd : PointCloud) (st : FrameState) :
  stdout (estimate_pose stat_viewMat_inv obj_id pcd st) =
  stdout st ++ stdout (estimate_pose stat_viewMat_inv obj_id pcd new_frame).
Proof.
  unfold estimate_pose.
  destruct (0 <? length (points pcd))%nat; [|simpl; now rewrite app_nil_r].
  destruct (get_oriented_bounding_box pcd); reflexivity.
Qed.

(** One iteration changes the frame state by what it does on a fresh
    state: at most one record, under its own id, and its own prints. *)
Lemma process_object_poses (st : FrameState) (obj_id : Z) :
  timestep_object_poses (process st obj_id) =
  match pose_of obj_id with
  | Some d => <[obj_id := d]> (timestep_object_poses st)
  | None => timestep_object_poses st
  end.
Proof.
  unfold object_pose, process_object.
  destruct (obj_id <=? 0)%Z; [reflexivity|].
  destruct (negb (np.any _)); [reflexivity|].
  destruct (length (points (cloud obj_id)) <? 10)%nat; [reflexivity|].
  destruct (filter_cloud (cloud obj_id)) as [pcd|e]; [|reflexivity].
  rewrite !estimate_pose_poses.
  destruct (0 <? length (points pcd))%nat; [|reflexivity].
  simpl. now rewrite lookup_insert_eq.
Qed.

Lemma process_object_stdout (st : FrameState) (obj_id : Z) :
  stdout (process st obj_id) = stdout st ++ prints_of obj_id.
Proof.
  unfold object_prints, process_object.
  destruct (obj_id <=? 0)%Z; [simpl; now rewrite app_nil_r|].
  destruct (negb (np.any _)); [simpl; now rewrite <- app_assoc|].
  destruct (length (points (cloud obj_id)) <? 10)%nat;
    [simpl; now rewrite <- app_assoc|].
  destruct (filter_cloud (cloud obj_id)) as [pcd|e];
    [|simpl; now rewrite <- !app_assoc].
  rewrite estimate_pose_stdout.
  rewrite (estimate_pose_stdout _ _ (print _ (print _ new_frame))).
  simpl. now rewrite <- !app_assoc.
Qed.

Lemma poses_print (e : Event) (st : FrameState) :
  timestep_object_poses (print e st) = timestep_object_poses st.
Proof. reflexivity. Qed.

Lemma poses_new_frame : timestep_object_poses new_frame = ∅.
Proof. reflexivity. Qed.

(** When an iteration stores a record. *)
Lemma object_pose_Some (obj_id : Z) (d : PoseDict) :
  pose_of obj_id = Some d <->
  (0 < obj_id)%Z /\
  np.any (np.eq_mask seg_s obj_id) = true /\
  (10 <= length (points (cloud obj_id)))%nat /\
  exists pcd : PointCloud,
    filter_cloud (cloud obj_id) = inl pcd /\
    (0 < length (points pcd))%nat /\
    d = fitted_pose stat_viewMat_inv pcd.
Proof.
  unfold object_pose, process_object.
  destruct (Z.leb_spec obj_id 0) as [Hle|Hpos].
  { rewrite poses_new_frame, lookup_empty. split; [discriminate|]. intros [? _]; lia. }
  destruct (np.any (np.eq_mask seg_s obj_id)); cbn [negb].
  2:{ rewrite !poses_print, poses_new_frame, lookup_empty.
      split; [discriminate|]. intros (_&?&_); discriminate. }
  destruct (Nat.ltb_spec (length (points (cloud obj_id))) 10) as [Hlt|Hge].
  { rewrite !poses_print, poses_new_frame, lookup_empty.
    split; [discriminate|]. intros (_&_&?&_); lia. }
  destruct (filter_cloud (cloud obj_id)) as [pcd|e].
  2:{ rewrite !poses_print, poses_new_frame, lookup_empty.
      split; [discriminate|]. intros (_&_&_&pcd&?&_); discriminate. }
  rewrite estimate_pose_poses, !poses_print, poses_new_frame.
  destruct (Nat.ltb_spec 0 (length (points pcd))) as [Hne|Hemp].
  - rewrite lookup_insert_eq. split.
    + intros [= <-]. repeat split; try assumption. exists pcd. auto.
    + intros (_&_&_&pcd'&[= <-]&_&->). reflexivity.
  - rewrite lookup_empty. split; [discriminate|].
    intros (_&_&_&pcd'&[= <-]&?&_). lia.
Qed.

Lemma any_eq_mask (obj_id : Z) :
  np.any (np.eq_mask seg_s obj_id) = true <-> In obj_id (concat seg_s).
Proof.
  unfold np.any, np.eq_mask. rewrite existsb_exists, in_concat. split.
  - intros (row & Hrow & Hex). apply in_map_iff in Hrow as (srow & <- & Hs).
    apply existsb_exists in Hex as (b & Hb & ->).
    apply in_map_iff in Hb as (v & Hv & Hin). apply Z.eqb_eq in Hv. subst v.
    eauto.
  - intros (srow & Hs & Hin). exists (List.map (fun x => (x =? obj_id)%Z) srow).
    split; [now apply in_map|]. apply existsb_exists. exists true. split; [|reflexivity].
    apply in_map_iff. exists obj_id. split; [apply Z.eqb_refl|assumption].
Qed.

Lemma object_pose_skipped (obj_id : Z) :
  ~ In obj_id (object_ids seg_s) -> pose_of obj_id = None.
Proof.
  intros Hout. destruct (pose_of obj_id) as [d|] eqn:E; [|reflexivity].
  apply object_pose_Some in E as (Hpos & Hany & _).
  exfalso. apply Hout. apply object_ids_In. split; [now apply any_eq_mask|assumption].
Qed.

Lemma fold_process_poses (ids : list Z) (st : FrameState) (j : Z) :
  timestep_object_poses (fold_left process ids st) !! j =
  if existsb (Z.eqb j) ids
  then match pose_of j with
       | Some d => Some d
       | None => timestep_object_poses st !! j
       end
  else timestep_object_poses st !! j.
Proof.
  revert st. induction ids as [|i ids IH]; intros st; [reflexivity|].
  cbn [fold_left existsb]. rewrite IH, process_object_poses.
  destruct (Z.eqb_spec j i) as [->|Hne]; cbn [orb].
  - destruct (pose_of i) as [d|]; [|now destruct (existsb _ ids)].
    rewrite lookup_insert_eq. now destruct (existsb _ ids).
  - destruct (pose_of i) as [d|]; [|reflexivity].
    rewrite lookup_insert_ne by congruence. reflexivity.
Qed.

Lemma fold_process_stdout (ids : list Z) (st : FrameState) :
  stdout (fold_left process ids st) =
  stdout st ++ concat (List.map prints_of ids).
Proof.
  revert st. induction ids as [|i ids IH]; intros st; simpl.
  - now rewrite app_nil_r.
  - now rewrite IH, process_object_stdout, <- app_assoc.
Qed.

Lemma fold_print_poses {A} (f : A -> Event) (xs : list A) (st : FrameState) :
  timestep_object_poses (fold_left (fun st x => print (f x) st) xs st) =
  timestep_object_poses st.
Proof. revert st. induction xs as [|x xs IH]; intros st; simpl; [|rewrite IH]; reflexivity. Qed.

Lemma fold_print_stdout {A} (f : A -> Event) (xs : list A) (st : FrameState) :
  stdout (fold_left (fun st x => print (f x) st) xs st) = stdout st ++ List.map f xs.
Proof.
  revert st. induction xs as [|x xs IH]; intros st; simpl.
  - now rewrite app_nil_r.
  - rewrite IH. simpl. now rewrite <- app_assoc.
Qed.

Lemma items_print (e : Event) (st : FrameState) : items (print e st) = items st.
Proof. reflexivity. Qed.

Lemma fold_print_items {A} (f : A -> Event) (xs : list A) (st : FrameState) :
  items (fold_left (fun st x => print (f x) st) xs st) = items st.
Proof. revert st. induction xs as [|x xs IH]; intros st; simpl; [|rewrite IH]; reflexivity. Qed.

(** An item of the dictionary is a key with its record. *)
Lemma items_lookup (st : FrameState) (k : Z) (d : PoseDict) :
  In (k, d) (items st) -> timestep_object_poses st !! k = Some d.
Proof.
  unfold items. rewrite <- list_elem_of_In, list_elem_of_omap.
  intros (j & _ & Hj). apply fmap_Some in Hj as (d' & Hd' & [= -> ->]). exact Hd'.
Qed.

(** The Frame Result, key by key: what the iteration of that key stores. *)
Lemma frame_result_lookup (j : Z) :
  timestep_object_poses frame !! j = pose_of j.
Proof.
  unfold object_loop. rewrite fold_print_poses, poses_print, fold_process_poses.
  cbn [timestep_object_poses]. rewrite lookup_empty.
  destruct (existsb (Z.eqb j) (np.unique seg_s)) eqn:E; [now destruct (pose_of j)|].
  symmetry. apply object_pose_skipped. intros Hin.
  unfold object_ids in Hin. apply filter_In in Hin as [Hin _].
  assert (existsb (Z.eqb j) (np.unique seg_s) = true); [|congruence].
  apply existsb_exists. exists j. split; [assumption|apply Z.eqb_refl].
Qed.

Lemma frame_stdout :
  stdout frame =
  UniqueIds (np.unique seg_s)
  :: concat (List.map prints_of (np.unique seg_s))
  ++ Detected (size (timestep_object_poses frame))
  :: List.map (fun kv => ObjectAt (fst kv) (dict_get (snd kv) "position_world"))
              (items frame).
Proof.
  unfold object_loop at 1. rewrite fold_print_stdout.
  cbn [stdout print]. rewrite fold_process_stdout. cbn [stdout app].
  unfold object_loop. rewrite fold_print_items, fold_print_poses, poses_print.
  rewrite items_print. now rewrite <- app_assoc.
Qed.

(** Every print of an iteration is about its own object. *)
Lemma object_prints_about (obj_id : Z) (e : Event) :
  In e (prints_of obj_id) -> event_object e = Some obj_id.
Proof.
  unfold object_prints, process_object.
  destruct (obj_id <=? 0)%Z; [intros []|].
  destruct (negb (np.any _)).
  { cbn. intros [<-|[<-|[]]]; reflexivity. }
  destruct (length (points (cloud obj_id)) <? 10)%nat.
  { cbn. intros [<-|[<-|[]]]; reflexivity. }
  destruct (filter_cloud (cloud obj_id)) as [pcd|err].
  2:{ cbn. intros [<-|[<-|[<-|[]]]]; reflexivity. }
  rewrite estimate_pose_stdout. unfold estimate_pose.
  destruct (0 <? length (points pcd))%nat.
  2:{ cbn. intros [<-|[<-|[]]]; reflexivity. }
  destruct (get_oriented_bounding_box pcd);
    cbn; intros [<-|[<-|[<-|[]]]]; reflexivity.
Qed.

Lemma object_prints_in_frame (obj_id : Z) (e : Event) :
  In obj_id (object_ids seg_s) -> In e (prints_of obj_id) -> In e (stdout frame).
Proof.
  intros Hid He. rewrite frame_stdout. right. apply in_or_app. left.
  apply in_concat. exists (prints_of obj_id). split; [|assumption].
  apply in_map. unfold object_ids in Hid. now apply filter_In in Hid.
Qed.

(** The prints of a frame about one object: those of its iteration, and
    its summary line when it has a record. *)
Lemma frame_stdout_about (obj_id : Z) (e : Event) :
  In e (stdout frame) -> event_object e = Some obj_id ->
  In e (prints_of obj_id) \/
  exists d, timestep_object_poses frame !! obj_id = Some d /\
            e = ObjectAt obj_id (dict_get d "position_world").
Proof.
  rewrite frame_stdout. intros [<-|Hin] Habout; [discriminate Habout|].
  apply in_app_or in Hin as [Hin|[<-|Hin]]; [|discriminate Habout|].
  - left. apply in_concat in Hin as (l & Hl & He).
    apply in_map_iff in Hl as (j & <- & _).
    pose proof (object_prints_about j e He) as Hj.
    assert (j = obj_id) by congruence. now subst j.
  - right. apply in_map_iff in Hin as ([k d] & <- & Hkd).
    cbn in Habout. injection Habout as ->.
    exists d. split; [|reflexivity]. now apply items_lookup.
Qed.

Lemma object_ids_gate (obj_id : Z) :
  In obj_id (object_ids seg_s) ->
  (obj_id <=? 0)%Z = false /\ np.any (np.eq_mask seg_s obj_id) = true.
Proof.
  intros Hid. apply object_ids_In in Hid as [Hin Hpos].
  split; [apply Z.leb_gt; lia|now apply any_eq_mask].
Qed.

(** When a key of the Frame Result exists. *)
Lemma frame_result_is_Some (obj_id : Z) :
  is_Some (timestep_object_poses frame !! obj_id) <->
  In obj_id (object_ids seg_s) /\
  (10 <= length (points (cloud obj_id)))%nat /\
  exists pcd : PointCloud,
    filter_cloud (cloud obj_id) = inl pcd /\ (0 < length (points pcd))%nat.
Proof.
  rewrite frame_result_lookup. unfold is_Some. split.
  - intros (d & Hd).
    apply object_pose_Some in Hd as (Hpos & Hany & Hten & pcd & Hf & Hne & _).
    split; [|split; [assumption|eauto]].
    apply object_ids_In. split; [now apply any_eq_mask|assumption].
  - intros (Hid & Hten & pcd & Hf & Hne).
    exists (fitted_pose stat_viewMat_inv pcd). apply object_pose_Some.
    apply object_ids_In in Hid as [Hin Hpos].
    split; [assumption|]. split; [now apply any_eq_mask|]. split; [assumption|].
    exists pcd. auto.
Qed.

(** C1, amended.  The keys of the Frame Result are exactly the object
    ids of the frame whose reconstructed cloud has at least 10 points,
    whose filtering did not raise, and whose filtered cloud is not
    empty. *)
Theorem frame_result_keys (obj_id : Z) :
  obj_id ∈ dom (timestep_object_poses frame) <->
  In obj_id (object_ids seg_s) /\
  (10 <= length (points (cloud obj_id)))%nat /\
  exists pcd : PointCloud,
    filter_cloud (cloud obj_id) = inl pcd /\ (0 < length (points pcd))%nat.
Proof. rewrite elem_of_dom. apply frame_result_is_Some. Qed.

(** C3.  An object of the frame whose reconstructed cloud has fewer than
    10 points is reported as having too few points, and has no record
    in the Frame Result. *)
Theorem too_few_points_skips_object (obj_id : Z) :
  In obj_id (object_ids seg_s) ->
  (length (points (cloud obj_id)) < 10)%nat ->
  In (TooFewPoints obj_id (length (points (cloud obj_id)))) (stdout frame) /\
  timestep_object_poses frame !! obj_id = None /\
  obj_id ∉ dom (timestep_object_poses frame).
Proof.
  intros Hid Hfew.
  assert (Hnone : timestep_object_poses frame !! obj_id = None).
  { rewrite frame_result_lookup.
    destruct (pose_of obj_id) as [d|] eqn:E; [|reflexivity].
    apply object_pose_Some in E as (_ & _ & Hten & _). lia. }
  split; [|split; [assumption|now apply not_elem_of_dom]].
  apply (object_prints_in_frame obj_id); [assumption|].
  destruct (object_ids_gate obj_id Hid) as [Hpos Hany].
  unfold object_prints, process_object. rewrite Hpos, Hany. cbn [negb].
  apply Nat.ltb_lt in Hfew. rewrite Hfew. cbn. auto.
Qed.

(** C9.  For an object of the frame whose cloud passed the threshold and
    whose filtering did not raise, a record is emitted exactly when the
    filtered cloud is not empty; whenever a record exists, the filtered
    cloud of its object is not empty; and when the filtered cloud is
    empty, the frame prints nothing about the object but the two
    progress lines: no error is reported. *)
Theorem records_need_filtered_points (obj_id : Z) (pcd : PointCloud) :
  In obj_id (object_ids seg_s) ->
  (10 <= length (points (cloud obj_id)))%nat ->
  filter_cloud (cloud obj_id) = inl pcd ->
  (is_Some (timestep_object_poses frame !! obj_id)
   <-> (0 < length (points pcd))%nat) /\
  (forall j : Z, is_Some (timestep_object_poses frame !! j) ->
     exists pcd' : PointCloud,
       filter_cloud (cloud j) = inl pcd' /\ (0 < length (points pcd'))%nat) /\
  (length (points pcd) = 0%nat ->
   timestep_object_poses frame !! obj_id = None /\
   forall e : Event, In e (stdout frame) -> event_object e = Some obj_id ->
     is_error_event e = false /\
     (e = Processing obj_id \/
      e = CloudSize obj_id (length (points (cloud obj_id))))).
Proof.
  intros Hid Hten Hf.
  assert (Hall : forall j : Z, is_Some (timestep_object_poses frame !! j) ->
            exists pcd' : PointCloud,
              filter_cloud (cloud j) = inl pcd' /\ (0 < length (points pcd'))%nat).
  { intros j [d Hd]. rewrite frame_result_lookup in Hd.
    apply object_pose_Some in Hd as (_ & _ & _ & pcd' & ? & ? & _). eauto. }
  assert (Hiff : is_Some (timestep_object_poses frame !! obj_id)
                 <-> (0 < length (points pcd))%nat).
  { split.
    - intros Hsome. destruct (Hall _ Hsome) as (pcd' & Hf' & Hne).
      rewrite Hf in Hf'. now injection Hf' as <-.
    - intros Hne. apply frame_result_is_Some. eauto. }
  split; [assumption|]. split; [assumption|].
  intros Hemp.
  assert (Hnone : timestep_object_poses frame !! obj_id = None).
  { apply eq_None_not_Some. rewrite Hiff. lia. }
  split; [assumption|].
  assert (Hprints : prints_of obj_id =
            [Processing obj_id; CloudSize obj_id (length (points (cloud obj_id)))]).
  { destruct (object_ids_gate obj_id Hid) as [Hpos Hany].
    unfold object_prints, process_object. rewrite Hpos, Hany. cbn [negb].
    apply Nat.ltb_ge in Hten. rewrite Hten, Hf.
    unfold estimate_pose. rewrite Hemp. reflexivity. }
  intros e He Habout.
  destruct (frame_stdout_about obj_id e He Habout) as [Hin|(d & Hd & _)].
  - rewrite Hprints in Hin. destruct Hin as [<-|[<-|[]]]; auto.
  - congruence.
Qed.

(** C4.  When the inversion of the view matrix returns and the box fit
    raises on the non-empty filtered cloud of an object, the perception
    pass of the frame does not raise and the object has a record whose
    orientation_camera is the 3 x 3 identity matrix and whose dimensions
    are None.  Its position_camera is the centroid of the filtered
    cloud, each coordinate the sum of a column of the points over their
    number, and its position_world is the image of that centroid under
    the inverse view matrix; neither depends on the box. *)
Theorem obb_failure_falls_back (viewMat : list Qc) (V : np.mat)
    (obj_id : Z) (pcd : PointCloud) (e : Exn) :
  np.reshape44 viewMat = inl V ->
  inv V = inl stat_viewMat_inv ->
  np.has_shape 4 4 stat_viewMat_inv ->
  In obj_id (object_ids seg_s) ->
  (10 <= length (points (cloud obj_id)))%nat ->
  filter_cloud (cloud obj_id) = inl pcd ->
  (0 < length (points pcd))%nat ->
  Forall (fun p => length p = 3%nat) (points pcd) ->
  get_oriented_bounding_box pcd = inr e ->
  exists (st : FrameState) (d : PoseDict) (pc pw : np.vec),
    perceive_frame intrinsic (rgb_s, depth_s, seg_s) viewMat = inl st /\
    timestep_object_poses st !! obj_id = Some d /\
    dict_get d "orientation_camera" =
      Some (PArr2 [[1; 0; 0]; [0; 1; 0]; [0; 0; 1]]) /\
    dict_get d "dimensions" = Some PNone /\
    dict_get d "position_camera" = Some (PArr1 pc) /\
    dict_get d "position_world" = Some (PArr1 pw) /\
    length pc = 3%nat /\
    (forall k : nat, (k < 3)%nat ->
       nth k pc 0 =
       fold_right Qcplus 0 (List.map (fun p => nth k p 0) (points pcd))
       / Q2Qc (inject_Z (Z.of_nat (length (points pcd))))) /\
    length pw = 3%nat /\
    (forall i : nat, (i < 3)%nat ->
       nth i pw 0 =
       np.ix2 stat_viewMat_inv i 0 * nth 0 pc 0
       + np.ix2 stat_viewMat_inv i 1 * nth 1 pc 0
       + np.ix2 stat_viewMat_inv i 2 * nth 2 pc 0
       + np.ix2 stat_viewMat_inv i 3) /\
    In (ObbError obj_id e) (stdout st).
Proof.
  intros HV HI HM Hid Hten Hf Hne Hcols Hobb.
  destruct (mean0_entries (points pcd) Hcols) as [Hlen Hpc].
  destruct (to_world_point_entries stat_viewMat_inv (np.mean0 (points pcd)) HM Hlen)
    as [Hlenw Hpw].
  exists frame, (fitted_pose stat_viewMat_inv pcd), (np.mean0 (points pcd)),
         (to_world_point stat_viewMat_inv (np.mean0 (points pcd))).
  split. { unfold perceive_frame. rewrite HV. cbn [bind]. rewrite HI. reflexivity. }
  split.
  { rewrite frame_result_lookup. apply object_pose_Some.
    apply object_ids_In in Hid as [Hin Hpos].
    split; [assumption|]. split; [now apply any_eq_mask|]. split; [assumption|].
    exists pcd. auto. }
  unfold fitted_pose. rewrite Hobb.
  do 4 (split; [reflexivity|]).
  do 4 (split; [assumption|]).
  apply (object_prints_in_frame obj_id); [assumption|].
  destruct (object_ids_gate obj_id Hid) as [Hpos Hany].
  unfold object_prints, process_object. rewrite Hpos, Hany. cbn [negb].
  apply Nat.ltb_ge in Hten. rewrite Hten, Hf.
  unfold estimate_pose. apply Nat.ltb_lt in Hne. rewrite Hne, Hobb.
  cbn. auto.
Qed.

(** C10.  Every record of the Frame Result has the four entries
    position_camera, position_world, orientation_camera and
    orientation_world.  orientation_camera is a 3 x 3 matrix in every
    record, the identity matrix when the dimensions are None.
    orientation_world is the top-left 3 x 3 block of the inverse view
    matrix times orientation_camera: entry (i, j) is the sum over k of
    entry (i, k) of the inverse view matrix times entry (k, j) of
    orientation_camera.  position_world is the transform of
    position_camera.  The inverse view matrix is 4 x 4 and the boxes
    the library fits have 3 x 3 rotations. *)
Theorem emitted_records_are_complete (obj_id : Z) (d : PoseDict) :
  np.has_shape 4 4 stat_viewMat_inv ->
  (forall (pcd : PointCloud) (obb : OrientedBoundingBox),
     get_oriented_bounding_box pcd = inl obb -> np.has_shape 3 3 (R obb)) ->
  timestep_object_poses frame !! obj_id = Some d ->
  exists (pc pw : np.vec) (oc ow : np.mat),
    dict_get d "position_camera" = Some (PArr1 pc) /\
    dict_get d "position_world" = Some (PArr1 pw) /\
    dict_get d "orientation_camera" = Some (PArr2 oc) /\
    dict_get d "orientation_world" = Some (PArr2 ow) /\
    np.has_shape 3 3 oc /\
    np.has_shape 3 3 ow /\
    (forall i j : nat, (i < 3)%nat -> (j < 3)%nat ->
       np.ix2 ow i j =
       np.ix2 stat_viewMat_inv i 0 * np.ix2 oc 0 j
       + np.ix2 stat_viewMat_inv i 1 * np.ix2 oc 1 j
       + np.ix2 stat_viewMat_inv i 2 * np.ix2 oc 2 j) /\
    ow = np.dot_mm (np.block33 stat_viewMat_inv) oc /\
    pw = to_world_point stat_viewMat_inv pc /\
    (dict_get d "dimensions" = Some PNone ->
     oc = [[1; 0; 0]; [0; 1; 0]; [0; 0; 1]]).
Proof.
  intros HM Hboxes. rewrite frame_result_lookup. intros Hd.
  apply object_pose_Some in Hd as (_ & _ & _ & pcd & _ & _ & ->).
  unfold fitted_pose. destruct (get_oriented_bounding_box pcd) as [obb|err] eqn:Hobb.
  - pose proof (Hboxes pcd obb Hobb) as HR.
    destruct (to_world_rotation_entries stat_viewMat_inv (R obb) HM HR) as [Hs He].
    exists (np.mean0 (points pcd)),
           (to_world_point stat_viewMat_inv (np.mean0 (points pcd))),
           (R obb), (to_world_rotation stat_viewMat_inv (R obb)).
    do 4 (split; [reflexivity|]). do 3 (split; [assumption|]).
    do 2 (split; [reflexivity|]). cbn. discriminate.
  - assert (HR : np.has_shape 3 3 [[1; 0; 0]; [0; 1; 0]; [0; 0; 1]])
      by (split; [reflexivity|repeat constructor]).
    destruct (to_world_rotation_entries stat_viewMat_inv _ HM HR) as [Hs He].
    exists (np.mean0 (points pcd)),
           (to_world_point stat_viewMat_inv (np.mean0 (points pcd))),
           [[1; 0; 0]; [0; 1; 0]; [0; 0; 1]],
           (to_world_rotation stat_viewMat_inv [[1; 0; 0]; [0; 1; 0]; [0; 0; 1]]).
    do 4 (split; [reflexivity|]). do 3 (split; [assumption|]).
    do 2 (split; [reflexivity|]). reflexivity.
Qed.

End FrameProperties.

(** ** Concrete frames *)

(** C1, as stated, fails: in the near frame object 5 has a cloud of
    twelve points, above the threshold, and no record, because the
    filter leaves no point. *)
Lemma frame_result_misses_emptied_object :
  In 5%Z (object_ids toy.near_seg) /\
  (10 <= length (points scene.near_cloud))%nat /\
  (exists pcd : PointCloud,
     filter_cloud (o3d := toy.o3d) scene.near_cloud = inl pcd /\
     length (points pcd) = 0%nat) /\
  timestep_object_poses scene.near_frame !! 5%Z = None /\
  5%Z ∉ dom (timestep_object_poses scene.near_frame).
Proof.
  assert (Hnone : timestep_object_poses scene.near_frame !! 5%Z = None)
    by (vm_compute; reflexivity).
  split; [vm_compute; auto|].
  split; [apply Nat.leb_le; vm_compute; reflexivity|].
  split; [|split; [assumption|now apply not_elem_of_dom]].
  exists (scene.value scene.no_cloud (filter_cloud (o3d := toy.o3d) scene.near_cloud)).
  split; [|vm_compute; reflexivity].
  apply value_inl. intros e He. vm_compute in He. discriminate He.
Qed.

Lemma too_few_points_skips_object_witness :
  (In 5%Z (object_ids toy.block_seg) /\
   (length (points scene.block_cloud) < 10)%nat) /\
  (In (TooFewPoints 5 (length (points scene.block_cloud)))
      (stdout scene.block_frame) /\
   timestep_object_poses scene.block_frame !! 5%Z = None /\
   5%Z ∉ dom (timestep_object_poses scene.block_frame)).
Proof.
  assert (Hid : In 5%Z (object_ids toy.block_seg)) by (vm_compute; auto).
  assert (Hfew : (length (points scene.block_cloud) < 10)%nat)
    by (apply Nat.ltb_lt; vm_compute; reflexivity).
  split; [auto|].
  exact (too_few_points_skips_object (o3d := toy.o3d) toy.near_rgb toy.block_depth
           toy.block_seg toy.intrinsic np.eye4 5 Hid Hfew).
Defined.

Lemma records_need_filtered_points_witness :
  let pcd := scene.value scene.no_cloud
               (filter_cloud (o3d := toy.o3d) scene.near_cloud) in
  (In 5%Z (object_ids toy.near_seg) /\
   (10 <= length (points scene.near_cloud))%nat /\
   filter_cloud (o3d := toy.o3d) scene.near_cloud = inl pcd) /\
  (is_Some (timestep_object_poses scene.near_frame !! 5%Z)
   <-> (0 < length (points pcd))%nat) /\
  (forall j : Z, is_Some (timestep_object_poses scene.near_frame !! j) ->
     exists pcd' : PointCloud,
       filter_cloud (o3d := toy.o3d)
         (object_cloud (o3d := toy.o3d) toy.near_rgb toy.near_depth toy.near_seg
                       toy.intrinsic j) = inl pcd' /\
       (0 < length (points pcd'))%nat) /\
  (length (points pcd) = 0%nat ->
   timestep_object_poses scene.near_frame !! 5%Z = None /\
   forall e : Event, In e (stdout scene.near_frame) -> event_object e = Some 5%Z ->
     is_error_event e = false /\
     (e = Processing 5 \/ e = CloudSize 5 (length (points scene.near_cloud)))).
Proof.
  intros pcd.
  assert (Hid : In 5%Z (object_ids toy.near_seg)) by (vm_compute; auto).
  assert (Hten : (10 <= length (points scene.near_cloud))%nat)
    by (apply Nat.leb_le; vm_compute; reflexivity).
  assert (Hf : filter_cloud (o3d := toy.o3d) scene.near_cloud = inl pcd).
  { apply value_inl. intros e He. vm_compute in He. discriminate He. }
  split; [auto|].
  exact (records_need_filtered_points (o3d := toy.o3d) toy.near_rgb
           toy.near_depth toy.near_seg toy.intrinsic np.eye4 5 pcd Hid Hten Hf).
Defined.

Lemma rigid_view_inv_shape : np.has_shape 4 4 scene.rigid_view_inv.
Proof.
  split; [vm_compute; reflexivity|].
  unfold scene.rigid_view_inv.
  destruct (np.linalg_inv scene.rigid_view) as [Mi|err] eqn:E; [|repeat constructor].
  apply linalg_inv_inl in E as [_ ->]. repeat constructor.
Qed.

(** The boxes of the small Open3D are axis-aligned. *)
Lemma toy_boxes_have_rotations (pcd : PointCloud) (obb : OrientedBoundingBox) :
  get_oriented_bounding_box (Open3D := toy.o3d) pcd = inl obb ->
  np.has_shape 3 3 (R obb).
Proof.
  cbn [get_oriented_bounding_box toy.o3d]. unfold toy.fit_box.
  destruct (toy.coplanar (points pcd)); [discriminate|].
  intros [= <-]. split; [reflexivity|repeat constructor].
Qed.

Lemma obb_failure_falls_back_witness :
  let cloud := object_cloud (o3d := toy.o3d) toy.line_rgb toy.line_depth
                            toy.line_seg toy.intrinsic 7 in
  let pcd := scene.value scene.no_cloud (filter_cloud (o3d := toy.o3d) cloud) in
  let e := Open3DError "initial simplex is flat" in
  (np.reshape44 rigid_viewMat = inl scene.rigid_view /\
   inv (LinAlg := exact_inverse) scene.rigid_view = inl scene.rigid_view_inv /\
   np.has_shape 4 4 scene.rigid_view_inv /\
   In 7%Z (object_ids toy.line_seg) /\
   (10 <= length (points cloud))%nat /\
   filter_cloud (o3d := toy.o3d) cloud = inl pcd /\
   (0 < length (points pcd))%nat /\
   Forall (fun p => length p = 3%nat) (points pcd) /\
   get_oriented_bounding_box (Open3D := toy.o3d) pcd = inr e) /\
  exists (st : FrameState) (d : PoseDict) (pc pw : np.vec),
    perceive_frame (o3d := toy.o3d) (linalg := exact_inverse) toy.intrinsic
                   (toy.line_rgb, toy.line_depth, toy.line_seg) rigid_viewMat = inl st /\
    timestep_object_poses st !! 7%Z = Some d /\
    dict_get d "orientation_camera" =
      Some (PArr2 [[1; 0; 0]; [0; 1; 0]; [0; 0; 1]]) /\
    dict_get d "dimensions" = Some PNone /\
    dict_get d "position_camera" = Some (PArr1 pc) /\
    dict_get d "position_world" = Some (PArr1 pw) /\
    length pc = 3%nat /\
    (forall k : nat, (k < 3)%nat ->
       nth k pc 0 =
       fold_right Qcplus 0 (List.map (fun p => nth k p 0) (points pcd))
       / Q2Qc (inject_Z (Z.of_nat (length (points pcd))))) /\
    length pw = 3%nat /\
    (forall i : nat, (i < 3)%nat ->
       nth i pw 0 =
       np.ix2 scene.rigid_view_inv i 0 * nth 0 pc 0
       + np.ix2 scene.rigid_view_inv i 1 * nth 1 pc 0
       + np.ix2 scene.rigid_view_inv i 2 * nth 2 pc 0
       + np.ix2 scene.rigid_view_inv i 3) /\
    In (ObbError 7 e) (stdout st).
Proof.
  intros cloud pcd e.
  assert (HV : np.reshape44 rigid_viewMat = inl scene.rigid_view) by reflexivity.
  assert (HI : inv (LinAlg := exact_inverse) scene.rigid_view
               = inl scene.rigid_view_inv) by exact rigid_view_inv_ok.
  assert (HM := rigid_view_inv_shape).
  assert (Hid : In 7%Z (object_ids toy.line_seg)) by (vm_compute; auto).
  assert (Hten : (10 <= length (points cloud))%nat)
    by (apply Nat.leb_le; vm_compute; reflexivity).
  assert (Hf : filter_cloud (o3d := toy.o3d) cloud = inl pcd).
  { apply value_inl. intros e' He. vm_compute in He. discriminate He. }
  assert (Hne : (0 < length (points pcd))%nat)
    by (apply Nat.ltb_lt; vm_compute; reflexivity).
  assert (Hcols : Forall (fun p => length p = 3%nat) (points pcd)).
  { apply (Forall_of_forallb (fun p => (length p =? 3)%nat));
      [intros p Hp; now apply Nat.eqb_eq|vm_compute; reflexivity]. }
  assert (Hobb : get_oriented_bounding_box (Open3D := toy.o3d) pcd = inr e)
    by (vm_compute; reflexivity).
  split; [auto 12|].
  exact (obb_failure_falls_back (o3d := toy.o3d) (linalg := exact_inverse)
           toy.line_rgb toy.line_depth toy.line_seg toy.intrinsic
           scene.rigid_view_inv rigid_viewMat scene.rigid_view 7 pcd e
           HV HI HM Hid Hten Hf Hne Hcols Hobb).
Defined.

Lemma emitted_records_are_complete_witness :
  let frame := object_loop (o3d := toy.o3d) scene.patch_rgb scene.patch_depth
                           scene.patch_seg toy.intrinsic scene.rigid_view_inv in
  let d := default [] (timestep_object_poses frame !! 3%Z) in
  (np.has_shape 4 4 scene.rigid_view_inv /\
   (forall (pcd : PointCloud) (obb : OrientedBoundingBox),
      get_oriented_bounding_box (Open3D := toy.o3d) pcd = inl obb ->
      np.has_shape 3 3 (R obb)) /\
   timestep_object_poses frame !! 3%Z = Some d) /\
  exists (pc pw : np.vec) (oc ow : np.mat),
    dict_get d "position_camera" = Some (PArr1 pc) /\
    dict_get d "position_world" = Some (PArr1 pw) /\
    dict_get d "orientation_camera" = Some (PArr2 oc) /\
    dict_get d "orientation_world" = Some (PArr2 ow) /\
    np.has_shape 3 3 oc /\
    np.has_shape 3 3 ow /\
    (forall i j : nat, (i < 3)%nat -> (j < 3)%nat ->
       np.ix2 ow i j =
       np.ix2 scene.rigid_view_inv i 0 * np.ix2 oc 0 j
       + np.ix2 scene.rigid_view_inv i 1 * np.ix2 oc 1 j
       + np.ix2 scene.rigid_view_inv i 2 * np.ix2 oc 2 j) /\
    ow = np.dot_mm (np.block33 scene.rigid_view_inv) oc /\
    pw = to_world_point scene.rigid_view_inv pc /\
    (dict_get d "dimensions" = Some PNone ->
     oc = [[1; 0; 0]; [0; 1; 0]; [0; 0; 1]]).
Proof.
  intros frame d.
  assert (HM := rigid_view_inv_shape).
  assert (Hboxes := toy_boxes_have_rotations).
  assert (Hd : timestep_object_poses frame !! 3%Z = Some d).
  { unfold d. destruct (timestep_object_poses frame !! 3%Z) eqn:E;
      [reflexivity|]. vm_compute in E. discriminate E. }
  split; [auto|].
  exact (emitted_records_are_complete (o3d := toy.o3d) scene.patch_rgb
           scene.patch_depth scene.patch_seg toy.intrinsic scene.rigid_view_inv
           3 d HM Hboxes Hd).
Defined.

(** ** The run *)

Lemma for_each_app {A St} (xs ys : list A) (body : A -> St -> Raises St) (st : St) :
  for_each (xs ++ ys) body st =
  (do st' <- for_each xs body st; for_each ys body st').
Proof.
  revert st. induction xs as [|x xs IH]; intros st; simpl; [reflexivity|].
  destruct (body x st) as [st'|e]; simpl; [apply IH|reflexivity].
Qed.

(** An exception in one iteration ends the loop with that exception. *)
Lemma for_each_raises {A St} (xs ys : list A) (x : A)
    (body : A -> St -> Raises St) (st st' : St) (e : Exn) :
  for_each xs body st = inl st' -> body x st' = inr e ->
  for_each (xs ++ x :: ys) body st = inr e.
Proof.
  intros Hxs Hx. rewrite for_each_app, Hxs. simpl. now rewrite Hx.
Qed.

Lemma seq_split (n i : nat) :
  (i < n)%nat -> seq 0 n = seq 0 i ++ i :: seq (Datatypes.S i) (n - Datatypes.S i).
Proof.
  intros Hi. replace n with (i + Datatypes.S (n - Datatypes.S i))%nat at 1 by lia.
  rewrite seq_app. reflexivity.
Qed.

(** When the inversion raises, the perception pass raises with it,
    before any object is looked at. *)
Lemma perceive_frame_inversion_raises `{o3d : Open3D} `{linalg : LinAlg}
    (intrinsic : Intrinsic) (renders : RgbImage * DepthImage * SegImage)
    (viewMat : list Qc) (V : np.mat) (e : Exn) :
  np.reshape44 viewMat = inl V -> inv V = inr e ->
  perceive_frame intrinsic renders viewMat = inr e.
Proof.
  intros HV HI. unfold perceive_frame. destruct renders as [[rgb depth] seg].
  rewrite HV. cbn [bind]. now rewrite HI.
Qed.

Section RunProperties.

Context `{o3d : Open3D} `{linalg : LinAlg} {S : Type} `{simulator : Simulator S}.

(** C2, amended.  When [np.linalg.inv] raises on the view matrix of a
    perceived frame, the perception pass of that frame raises the same
    exception and stores nothing, and the exception ends the run:
    [run_exp] returns no dictionary and processes no later frame.  The
    frame is the one of step [i] of trial [tstep] of object [obj_name];
    [rs1], [rs2], [rs3] are the run states reached before that object,
    that trial and that step. *)
Theorem failed_inversion_ends_run (sim0 : S) (intrinsic : Intrinsic)
    (before after : list string) (obj_name : string) (tstep i : nat)
    (rs1 rs2 rs3 : RunState S) (V : np.mat) (e : Exn) :
  intrinsics_builder (projection_matrix sim0) = inl intrinsic ->
  for_each before (object_body intrinsic) (mkRunState sim0 ∅ []) = inl rs1 ->
  (tstep < 10)%nat ->
  for_each (seq 0 tstep) (trial_body intrinsic obj_name) rs1 = inl rs2 ->
  (i < 10000)%nat ->
  (i mod 100 = 0)%nat ->
  for_each (seq 0 i) (step_body intrinsic obj_name tstep)
           (mkRunState (reset obj_name (sim rs2)) (all_object_poses rs2)
                       (console rs2)) = inl rs3 ->
  np.reshape44 (stat_viewMat (step (sim rs3))) = inl V ->
  inv V = inr e ->
  perceive_frame intrinsic (get_static_renders (step (sim rs3)))
                 (stat_viewMat (step (sim rs3))) = inr e /\
  step_body intrinsic obj_name tstep i rs3 = inr e /\
  trial_body intrinsic obj_name tstep rs2 = inr e /\
  run_exp sim0 (before ++ obj_name :: after) = inr e.
Proof.
  intros Hintr Hobjs Ht Htrials Hi Hmod Hsteps HV HI.
  pose proof (perceive_frame_inversion_raises intrinsic
                (get_static_renders (step (sim rs3))) _ V e HV HI) as Hframe.
  assert (Hstep : step_body intrinsic obj_name tstep i rs3 = inr e).
  { unfold step_body. rewrite Hmod. cbn [Nat.eqb negb]. now rewrite Hframe. }
  assert (Htrial : trial_body intrinsic obj_name tstep rs2 = inr e).
  { unfold trial_body. rewrite (seq_split _ i Hi).
    eapply for_each_raises; eassumption. }
  assert (Hobj : object_body intrinsic obj_name rs1 = inr e).
  { unfold object_body. rewrite (seq_split 10 tstep Ht).
    eapply for_each_raises; eassumption. }
  split; [assumption|]. split; [assumption|]. split; [assumption|].
  unfold run_exp. rewrite Hintr. cbn [bind].
  now rewrite (for_each_raises before after obj_name _ _ rs1 e Hobjs Hobj).
Qed.

End RunProperties.

(** C2, as stated, fails: with a camera whose view matrix is the zero
    matrix at the first perceived frame and rigid afterwards, the
    inversion raises LinAlgError on that frame and the run does not go
    on to the next one; [run_exp] ends with LinAlgError. *)
Lemma singular_frame_ends_run_exp :
  np.reshape44 (stat_viewMat (Simulator := scene.simulator)
                  (step (Simulator := scene.simulator) 0%nat))
    = inl (List.repeat (List.repeat 0 4) 4) /\
  np.det4 (List.repeat (List.repeat 0 4) 4) = 0 /\
  inv (LinAlg := exact_inverse) (List.repeat (List.repeat 0 4) 4) = inr LinAlgError /\
  (forall s : nat, s <> 1%nat ->
     stat_viewMat (Simulator := scene.simulator) s = rigid_viewMat) /\
  run_exp (o3d := toy.o3d) (linalg := exact_inverse) (simulator := scene.simulator)
          0%nat ["YcbBanana"%string]
    = inr LinAlgError /\
  ~ exists poses,
      run_exp (o3d := toy.o3d) (linalg := exact_inverse)
              (simulator := scene.simulator) 0%nat
              ["YcbBanana"%string] = inl poses.
Proof.
  assert (Hrun : run_exp (o3d := toy.o3d) (linalg := exact_inverse)
                         (simulator := scene.simulator) 0%nat
                         ["YcbBanana"%string] = inr LinAlgError)
    by (vm_compute; reflexivity).
  split; [reflexivity|]. split; [apply Qc_is_canon; reflexivity|].
  split; [vm_compute; reflexivity|].
  split.
  { intros s Hs. cbn. destruct (Nat.eqb_spec s 1); [contradiction|reflexivity]. }
  split; [assumption|]. intros [poses Hposes]. congruence.
Qed.

Lemma failed_inversion_ends_run_witness :
  let sim0 := 0%nat in
  let intrinsic := scene.value toy.intrinsic (intrinsics_builder scene.projection) in
  let rs := mkRunState sim0 (∅ : gmap string (gmap Z PoseDict)) [] in
  let V := List.repeat (List.repeat 0 4) 4 in
  (intrinsics_builder (projection_matrix (Simulator := scene.simulator) sim0)
     = inl intrinsic /\
   for_each [] (object_body (o3d := toy.o3d) (linalg := exact_inverse)
                            (simulator := scene.simulator) intrinsic)
            rs = inl rs /\
   (0 < 10)%nat /\
   for_each (seq 0 0)
            (trial_body (o3d := toy.o3d) (linalg := exact_inverse)
                        (simulator := scene.simulator) intrinsic
                        "YcbBanana") rs = inl rs /\
   (0 < 10000)%nat /\
   (0 mod 100 = 0)%nat /\
   for_each (seq 0 0)
            (step_body (o3d := toy.o3d) (linalg := exact_inverse)
                       (simulator := scene.simulator) intrinsic
                       "YcbBanana" 0) rs = inl rs /\
   np.reshape44 (stat_viewMat (Simulator := scene.simulator) 1%nat) = inl V /\
   inv (LinAlg := exact_inverse) V = inr LinAlgError) /\
  (perceive_frame (o3d := toy.o3d) (linalg := exact_inverse) intrinsic
                  (get_static_renders (Simulator := scene.simulator) 1%nat)
                  (stat_viewMat (Simulator := scene.simulator) 1%nat)
     = inr LinAlgError /\
   step_body (o3d := toy.o3d) (linalg := exact_inverse)
             (simulator := scene.simulator) intrinsic
             "YcbBanana" 0 0 rs = inr LinAlgError /\
   trial_body (o3d := toy.o3d) (linalg := exact_inverse)
              (simulator := scene.simulator) intrinsic
              "YcbBanana" 0 rs = inr LinAlgError /\
   run_exp (o3d := toy.o3d) (linalg := exact_inverse)
           (simulator := scene.simulator) sim0
           ([] ++ "YcbBanana"%string :: []) = inr LinAlgError).
Proof.
  intros sim0 intrinsic rs V.
  assert (H1 : intrinsics_builder (projection_matrix (Simulator := scene.simulator) sim0)
               = inl intrinsic) by reflexivity.
  assert (H2 : for_each [] (object_body (o3d := toy.o3d) (linalg := exact_inverse)
                              (simulator := scene.simulator) intrinsic) rs = inl rs)
    by reflexivity.
  assert (H3 : (0 < 10)%nat) by lia.
  assert (H4 : for_each (seq 0 0)
                 (trial_body (o3d := toy.o3d) (linalg := exact_inverse)
                             (simulator := scene.simulator)
                             intrinsic "YcbBanana") rs = inl rs) by reflexivity.
  assert (H5 : (0 < 10000)%nat) by (apply Nat.ltb_lt; vm_compute; reflexivity).
  assert (H6 : (0 mod 100 = 0)%nat) by reflexivity.
  assert (H7 : for_each (seq 0 0)
                 (step_body (o3d := toy.o3d) (linalg := exact_inverse)
                            (simulator := scene.simulator)
                            intrinsic "YcbBanana" 0) rs = inl rs) by reflexivity.
  assert (H8 : np.reshape44 (stat_viewMat (Simulator := scene.simulator) 1%nat) = inl V)
    by reflexivity.
  assert (H9 : inv (LinAlg := exact_inverse) V = inr LinAlgError)
    by (vm_compute; reflexivity).
  split; [auto 12|].
  exact (failed_inversion_ends_run (o3d := toy.o3d) (linalg := exact_inverse)
           (simulator := scene.simulator) sim0 intrinsic [] []
           "YcbBanana" 0 0 rs rs rs V LinAlgError H1 H2 H3 H4 H5 H6 H7 H8 H9).
Defined.

(** ** Worked frames *)

Example unique_is_sorted_and_distinct :
  np.unique [[3; 0; 3]; [-1; 7; 0]]%Z = [-1; 0; 3; 7]%Z.
Proof. reflexivity. Qed.

Example frame_key_format : frame_key "YcbBanana" 3 9900 = "YcbBanana_3_9900"%string.
Proof. vm_compute. reflexivity. Qed.

(** A 2 x 2 block of object 5 at depth 2 gives four points, below the
    threshold: the frame reports it and detects nothing. *)
Example block_frame_prints :
  stdout scene.block_frame =
  [UniqueIds [0; 5]%Z; Processing 5; TooFewPoints 5 4; Detected 0].
Proof. vm_compute. reflexivity. Qed.

(** The patch on the curved surface gets a fitted box. *)
Example patch_frame_boxed :
  boxed (timestep_object_poses scene.patch_frame !! 3%Z) = true.
Proof. vm_compute. reflexivity. Qed.

(** Of two objects side by side, the summary lists the one with the
    smaller id first. *)
Example pair_frame_summary :
  List.map event_object (List.filter is_summary (stdout frames.pair_frame)) =
  [None; Some 3%Z; Some 7%Z].
Proof. vm_compute. reflexivity. Qed.

(** Twelve points in one voxel pass the threshold and are filtered away
    without a word. *)
Example near_frame_prints :
  stdout scene.near_frame =
  [UniqueIds [0; 5]%Z; Processing 5; CloudSize 5 12; Detected 0].
Proof. vm_compute. reflexivity. Qed.

(** Through the identity view matrix a point keeps its coordinates. *)
Lemma to_world_point_identity (p : np.vec) :
  length p = 3%nat -> to_world_point np.eye4 p = p.
Proof.
  intros Hp. destruct p as [|x [|y [|z [|? ?]]]]; try discriminate Hp.
  cbn -[Qcplus Qcmult]. vec_eq; ring.
Qed.

(** ** More about the object loop *)

Section FrameExtras.

Context `{o3d : Open3D}.
Variables (rgb_s : RgbImage) (depth_s : DepthImage) (seg_s : SegImage).
Variable intrinsic : Intrinsic.
Variable stat_viewMat_inv : np.mat.

Local Abbreviation cloud := (object_cloud rgb_s depth_s seg_s intrinsic).
Local Abbreviation process :=
  (process_object rgb_s depth_s seg_s intrinsic stat_viewMat_inv).
Local Abbreviation pose_of := (object_pose rgb_s depth_s seg_s intrinsic stat_viewMat_inv).
Local Abbreviation prints_of :=
  (object_prints rgb_s depth_s seg_s intrinsic stat_viewMat_inv).
Local Abbreviation geoms_of :=
  (object_geometries rgb_s depth_s seg_s intrinsic stat_viewMat_inv).
Local Abbreviation frame := (object_loop rgb_s depth_s seg_s intrinsic stat_viewMat_inv).

(** What an iteration past the threshold prints. *)
Lemma object_prints_filtered (obj_id : Z) :
  In obj_id (object_ids seg_s) ->
  (10 <= length (points (cloud obj_id)))%nat ->
  prints_of obj_id =
  Processing obj_id :: CloudSize obj_id (length (points (cloud obj_id))) ::
  match filter_cloud (cloud obj_id) with
  | inr e => [FilterError obj_id e]
  | inl pcd =>
      if (0 <? length (points pcd))%nat then
        match get_oriented_bounding_box pcd with
        | inl obb =>
            [PoseReport obj_id (np.mean0 (points pcd))
               (to_world_point stat_viewMat_inv (np.mean0 (points pcd)))
               (to_world_rotation stat_viewMat_inv (R obb)) (extent obb)]
        | inr e => [ObbError obj_id e]
        end
      else []
  end.
Proof.
  intros Hid Hten. destruct (object_ids_gate seg_s obj_id Hid) as [Hpos Hany].
  unfold object_prints, process_object. rewrite Hpos, Hany. cbn [negb].
  apply Nat.ltb_ge in Hten. rewrite Hten.
  destruct (filter_cloud (cloud obj_id)) as [pcd|e]; [|reflexivity].
  unfold estimate_pose. destruct (0 <? length (points pcd))%nat; [|reflexivity].
  destruct (get_oriented_bounding_box pcd); reflexivity.
Qed.

(** X1.  When the downsampling or the outlier removal of an object
    raises, the frame prints the error for that object, stores no
    record for it, and prints nothing else about it but the two
    progress lines. *)
Theorem filter_failure_skips_object (obj_id : Z) (e : Exn) :
  In obj_id (object_ids seg_s) ->
  (10 <= length (points (cloud obj_id)))%nat ->
  filter_cloud (cloud obj_id) = inr e ->
  In (FilterError obj_id e) (stdout frame) /\
  timestep_object_poses frame !! obj_id = None /\
  forall ev : Event, In ev (stdout frame) -> event_object ev = Some obj_id ->
    ev = Processing obj_id \/
    ev = CloudSize obj_id (length (points (cloud obj_id))) \/
    ev = FilterError obj_id e.
Proof.
  intros Hid Hten Hf.
  pose proof (object_prints_filtered obj_id Hid Hten) as Hprints.
  rewrite Hf in Hprints.
  assert (Hnone : timestep_object_poses frame !! obj_id = None).
  { rewrite frame_result_lookup.
    destruct (pose_of obj_id) as [d|] eqn:E; [|reflexivity].
    apply object_pose_Some in E as (_ & _ & _ & pcd & Hf' & _). congruence. }
  split; [|split; [assumption|]].
  - apply (object_prints_in_frame _ _ _ _ _ obj_id); [assumption|].
    rewrite Hprints. cbn. auto.
  - intros ev Hev Habout.
    destruct (frame_stdout_about _ _ _ _ _ obj_id ev Hev Habout) as [Hin|(d & Hd & _)];
      [|congruence].
    rewrite Hprints in Hin. cbn in Hin. intuition.
Qed.

Lemma geoms_print (e : Event) (st : FrameState) :
  visualization_geometries (print e st) = visualization_geometries st.
Proof. reflexivity. Qed.

Lemma estimate_pose_geoms (obj_id : Z) (pcd : PointCloud) (st : FrameState) :
  visualization_geometries (estimate_pose stat_viewMat_inv obj_id pcd st) =
  visualization_geometries st ++
  visualization_geometries (estimate_pose stat_viewMat_inv obj_id pcd new_frame).
Proof.
  unfold estimate_pose.
  destruct (0 <? length (points pcd))%nat; [|cbn; now rewrite app_nil_r].
  destruct (get_oriented_bounding_box pcd); cbn;
    [now rewrite <- !app_assoc|now rewrite app_nil_r].
Qed.

Lemma process_object_geoms (st : FrameState) (obj_id : Z) :
  visualization_geometries (process st obj_id) =
  visualization_geometries st ++ geoms_of obj_id.
Proof.
  unfold object_geometries, process_object.
  destruct (obj_id <=? 0)%Z; [cbn; now rewrite app_nil_r|].
  destruct (negb (np.any _)); [cbn; now rewrite app_nil_r|].
  destruct (length (points (cloud obj_id)) <? 10)%nat; [cbn; now rewrite app_nil_r|].
  destruct (filter_cloud (cloud obj_id)) as [pcd|e]; [|cbn; now rewrite app_nil_r].
  rewrite estimate_pose_geoms.
  rewrite (estimate_pose_geoms _ _ (print _ (print _ new_frame))).
  reflexivity.
Qed.

Lemma fold_process_geoms (ids : list Z) (st : FrameState) :
  visualization_geometries (fold_left process ids st) =
  visualization_geometries st ++ concat (List.map geoms_of ids).
Proof.
  revert st. induction ids as [|i ids IH]; intros st; simpl.
  - now rewrite app_nil_r.
  - now rewrite IH, process_object_geoms, <- app_assoc.
Qed.

Lemma fold_print_geoms {A} (f : A -> Event) (xs : list A) (st : FrameState) :
  visualization_geometries (fold_left (fun st x => print (f x) st) xs st) =
  visualization_geometries st.
Proof. revert st. induction xs as [|x xs IH]; intros st; simpl; [|rewrite IH]; reflexivity. Qed.

Lemma frame_geometries :
  visualization_geometries frame =
  CoordinateFrame (Q2Qc (5 # 10)) [0; 0; 0]
  :: concat (List.map geoms_of (np.unique seg_s)).
Proof.
  unfold object_loop. rewrite fold_print_geoms, geoms_print, fold_process_geoms.
  reflexivity.
Qed.




(** X3.  The empty-mask branch of line 110 is never taken: no frame
    prints "No pixels" for any id. *)
Theorem no_pixels_never_printed (j : Z) :
  ~ In (NoPixels j)
       (stdout (object_loop rgb_s depth_s seg_s intrinsic stat_viewMat_inv)).
Proof.
  intros Hin.
  destruct (frame_stdout_about _ _ _ _ _ j (NoPixels j) Hin eq_refl)
    as [Hp|(d & _ & Hd)]; [|discriminate Hd].
  assert (Hj : In j (np.unique seg_s)).
  { rewrite frame_stdout in Hin. destruct Hin as [Hin|Hin]; [discriminate Hin|].
    apply in_app_or in Hin as [Hin|[Hin|Hin]]; [|discriminate Hin|].
    - apply in_concat in Hin as (l & Hl & He).
      apply in_map_iff in Hl as (i & <- & Hi).
      pose proof (object_prints_about _ _ _ _ _ i _ He) as Hi'.
      injection Hi' as <-. assumption.
    - apply in_map_iff in Hin as (kv & Hkv & _). discriminate Hkv. }
  apply unique_In, any_eq_mask in Hj.
  revert Hp. unfold object_prints, process_object.
  destruct (j <=? 0)%Z; [intros []|]. rewrite Hj. cbn [negb].
  destruct (length (points (cloud j)) <? 10)%nat.
  { cbn. intros [H|[H|[]]]; discriminate H. }
  destruct (filter_cloud (cloud j)) as [pcd|e].
  2:{ cbn. intros [H|[H|[H|[]]]]; discriminate H. }
  rewrite estimate_pose_stdout. unfold estimate_pose.
  destruct (0 <? length (points pcd))%nat.
  2:{ cbn. intros [H|[H|[]]]; discriminate H. }
  destruct (get_oriented_bounding_box pcd);
    cbn; intros [H|[H|[H|[]]]]; discriminate H.
Qed.

Lemma filter_processing_prints (i : Z) :
  List.filter is_processing (prints_of i) =
  if (i <=? 0)%Z then [] else [Processing i].
Proof.
  unfold object_prints, process_object.
  destruct (i <=? 0)%Z; [reflexivity|].
  destruct (negb (np.any _)); [reflexivity|].
  destruct (length (points (cloud i)) <? 10)%nat; [reflexivity|].
  destruct (filter_cloud (cloud i)) as [pcd|e]; [|reflexivity].
  rewrite estimate_pose_stdout. unfold estimate_pose.
  destruct (0 <? length (points pcd))%nat; [|reflexivity].
  destruct (get_oriented_bounding_box pcd); reflexivity.
Qed.

Lemma filter_processing_loop (ids : list Z) :
  List.filter is_processing (concat (List.map prints_of ids)) =
  List.map Processing (List.filter (fun i => negb (i <=? 0)%Z) ids).
Proof.
  induction ids as [|i ids IH]; [reflexivity|].
  cbn [List.map concat List.filter]. rewrite List.filter_app, IH, filter_processing_prints.
  destruct (i <=? 0)%Z; reflexivity.
Qed.

Lemma sorted_filter (f : Z -> bool) (l : list Z) :
  StronglySorted Z.lt l -> StronglySorted Z.lt (List.filter f l).
Proof.
  induction 1 as [|x l Hl IH Hx]; simpl; [constructor|].
  destruct (f x); [|assumption]. constructor; [assumption|].
  apply List.Forall_forall. intros y Hy. apply filter_In in Hy as [Hy _].
  rewrite List.Forall_forall in Hx. now apply Hx.
Qed.

(** X4.  A frame prints one "Processing" line per object id, in
    ascending order of the ids, and none for an id that is not
    positive. *)
Theorem processing_lines_follow_ids :
  List.filter is_processing (stdout frame) = List.map Processing (object_ids seg_s) /\
  StronglySorted Z.lt (object_ids seg_s) /\
  Forall (fun obj_id => (0 < obj_id)%Z) (object_ids seg_s).
Proof.
  split; [|split].
  - rewrite frame_stdout. cbn [List.filter is_processing].
    rewrite List.filter_app, filter_processing_loop. cbn [List.filter is_processing].
    replace (List.filter is_processing (List.map _ (items _))) with (@nil Event).
    + now rewrite app_nil_r.
    + induction (items frame) as [|kv l IH]; [reflexivity|exact IH].
  - apply sorted_filter, unique_sorted.
  - apply List.Forall_forall. intros j Hj. now apply object_ids_In in Hj.
Qed.

Lemma existsb_Permutation {A} (f : A -> bool) (l l' : list A) :
  Permutation l l' -> existsb f l = existsb f l'.
Proof.
  induction 1 as [|x l l' _ IH|x y l|l l' l'' _ IH1 _ IH2]; simpl.
  - reflexivity.
  - now rewrite IH.
  - destruct (f x), (f y); reflexivity.
  - now rewrite IH1.
Qed.

(** X5.  The dictionary the object loop builds does not depend on the
    order in which the ids are visited: each iteration writes under its
    own id only. *)
Theorem object_order_is_irrelevant (ids ids' : list Z) (st : FrameState) :
  Permutation ids ids' ->
  timestep_object_poses (fold_left process ids st) =
  timestep_object_poses (fold_left process ids' st).
Proof.
  intros Hperm. apply map_eq. intros j.
  rewrite !fold_process_poses.
  now rewrite (existsb_Permutation (Z.eqb j) ids ids' Hperm).
Qed.

Lemma length_object_geometries (i : Z) :
  length (geoms_of i) = if boxed (pose_of i) then 3%nat else 0%nat.
Proof.
  unfold object_geometries, object_pose, process_object.
  destruct (i <=? 0)%Z; [now rewrite poses_new_frame, lookup_empty|].
  destruct (negb (np.any _));
    [now rewrite !poses_print, poses_new_frame, lookup_empty|].
  destruct (length (points (cloud i)) <? 10)%nat;
    [now rewrite !poses_print, poses_new_frame, lookup_empty|].
  destruct (filter_cloud (cloud i)) as [pcd|e];
    [|now rewrite !poses_print, poses_new_frame, lookup_empty].
  rewrite estimate_pose_poses, !poses_print, poses_new_frame.
  unfold estimate_pose, fitted_pose.
  destruct (0 <? length (points pcd))%nat; [|now rewrite lookup_empty].
  rewrite lookup_insert_eq.
  destruct (get_oriented_bounding_box pcd); reflexivity.
Qed.

Lemma length_loop_geometries (ids : list Z) :
  length (concat (List.map geoms_of ids)) =
  (3 * length (List.filter (fun i => boxed (pose_of i)) ids))%nat.
Proof.
  induction ids as [|i ids IH]; [reflexivity|].
  cbn [List.map concat List.filter]. rewrite length_app, IH, length_object_geometries.
  destruct (boxed (pose_of i)); cbn [length]; lia.
Qed.

(** X6.  The geometries of a frame start with the coordinate frame of
    the world origin, and every object with a fitted box adds exactly
    three: an object that is skipped or falls back adds none. *)
Theorem geometries_count_fitted_boxes :
  (exists rest : list Geometry,
     visualization_geometries frame =
     CoordinateFrame (Q2Qc (5 # 10)) [0; 0; 0] :: rest) /\
  length (visualization_geometries frame) =
  (1 + 3 * length (List.filter
                     (fun obj_id => boxed (timestep_object_poses frame !! obj_id))
                     (object_ids seg_s)))%nat.
Proof.
  rewrite frame_geometries. split; [eauto|].
  cbn [length]. rewrite length_loop_geometries. f_equal. f_equal. f_equal.
  rewrite (List.filter_ext
             (fun obj_id => boxed (timestep_object_poses frame !! obj_id))
             (fun i => boxed (pose_of i)))
    by (intros i; now rewrite frame_result_lookup).
  unfold object_ids.
  induction (np.unique seg_s) as [|i ids IH]; [reflexivity|].
  cbn [List.filter].
  destruct (Z.leb_spec i 0) as [Hle|Hpos]; cbn [negb].
  - assert (Hnone : pose_of i = None).
    { destruct (pose_of i) as [d|] eqn:E; [|reflexivity].
      apply object_pose_Some in E as [? _]. lia. }
    rewrite Hnone. exact IH.
  - cbn [List.filter]. destruct (boxed (pose_of i)); now rewrite IH.
Qed.









End FrameExtras.

Lemma filter_failure_skips_object_witness :
  let cloud := object_cloud (o3d := frames.failing_o3d) toy.line_rgb toy.line_depth
                            toy.line_seg toy.intrinsic 7 in
  let frame := object_loop (o3d := frames.failing_o3d) toy.line_rgb toy.line_depth
                           toy.line_seg toy.intrinsic np.eye4 in
  let e := Open3DError "outlier removal failed" in
  (In 7%Z (object_ids toy.line_seg) /\
   (10 <= length (points cloud))%nat /\
   filter_cloud (o3d := frames.failing_o3d) cloud = inr e) /\
  In (FilterError 7 e) (stdout frame) /\
  timestep_object_poses frame !! 7%Z = None /\
  forall ev : Event, In ev (stdout frame) -> event_object ev = Some 7%Z ->
    ev = Processing 7 \/ ev = CloudSize 7 (length (points cloud)) \/
    ev = FilterError 7 e.
Proof.
  intros cloud frame e.
  assert (Hid : In 7%Z (object_ids toy.line_seg)) by (vm_compute; auto).
  assert (Hten : (10 <= length (points cloud))%nat)
    by (apply Nat.leb_le; vm_compute; reflexivity).
  assert (Hf : filter_cloud (o3d := frames.failing_o3d) cloud = inr e)
    by (vm_compute; reflexivity).
  split; [auto|].
  exact (filter_failure_skips_object (o3d := frames.failing_o3d) toy.line_rgb
           toy.line_depth toy.line_seg toy.intrinsic np.eye4 7 e Hid Hten Hf).
Defined.


Lemma object_order_is_irrelevant_witness :
  Permutation [0; 3; 7]%Z [7; 3; 0]%Z /\
  timestep_object_poses
    (fold_left (process_object (o3d := toy.o3d) frames.pair_rgb frames.pair_depth
                  frames.pair_seg toy.intrinsic scene.rigid_view_inv)
               [0; 3; 7]%Z new_frame) =
  timestep_object_poses
    (fold_left (process_object (o3d := toy.o3d) frames.pair_rgb frames.pair_depth
                  frames.pair_seg toy.intrinsic scene.rigid_view_inv)
               [7; 3; 0]%Z new_frame).
Proof.
  assert (Hperm : Permutation [0; 3; 7]%Z [7; 3; 0]%Z).
  { apply (Permutation_rev [0; 3; 7]%Z). }
  split; [assumption|].
  exact (object_order_is_irrelevant (o3d := toy.o3d) frames.pair_rgb frames.pair_depth
           frames.pair_seg toy.intrinsic scene.rigid_view_inv _ _ new_frame Hperm).
Defined.

(** ** The masked images *)

Lemma nth_error_zip_with {A B C} (f : A -> B -> C) (a : list A) (b : list B) (i : nat) :
  nth_error (zip_with f a b) i =
  match nth_error a i, nth_error b i with
  | Some x, Some y => Some (f x y)
  | _, _ => None
  end.
Proof.
  revert b i. induction a as [|x a IH]; intros [|y b] [|i]; simpl; try reflexivity.
  - now destruct (nth_error a i).
  - apply IH.
Qed.

Lemma pixel_zip_with {A B C} (f : A -> B -> C) (a : list (list A))
    (b : list (list B)) (r c : nat) :
  np.pixel (zip_with (zip_with f) a b) r c =
  match np.pixel a r c, np.pixel b r c with
  | Some x, Some y => Some (f x y)
  | _, _ => None
  end.
Proof.
  unfold np.pixel. rewrite nth_error_zip_with.
  destruct (nth_error a r) as [ra|]; [|reflexivity].
  destruct (nth_error b r) as [rb|]; [|now destruct (nth_error ra c)].
  apply nth_error_zip_with.
Qed.

Lemma pixel_map {A B} (f : A -> B) (a : list (list A)) (r c : nat) :
  np.pixel (List.map (List.map f) a) r c = option_map f (np.pixel a r c).
Proof.
  unfold np.pixel. rewrite nth_error_map.
  destruct (nth_error a r) as [row|]; simpl; [apply nth_error_map|reflexivity].
Qed.

(** X8.  In the masked depth image of an object, a pixel of the object
    keeps its depth and every other pixel is zero. *)
Theorem masked_depth_pixels (depth_s : DepthImage) (seg_s : SegImage)
    (obj_id : Z) (r c : nat) (d : Qc) (v : Z) :
  np.pixel depth_s r c = Some d ->
  np.pixel seg_s r c = Some v ->
  np.pixel (mask_depth depth_s (np.eq_mask seg_s obj_id)) r c =
  Some (if (v =? obj_id)%Z then d else 0).
Proof.
  intros Hd Hv. unfold mask_depth, np.where0.
  rewrite pixel_zip_with, pixel_eq_mask, Hv, Hd. reflexivity.
Qed.

Lemma masked_depth_pixels_witness :
  (np.pixel toy.block_depth 1 1 = Some (Qc_of_Z 2) /\
   np.pixel toy.block_seg 1 1 = Some 5%Z) /\
  np.pixel (mask_depth toy.block_depth (np.eq_mask toy.block_seg 5)) 1 1 =
  Some (if (5 =? 5)%Z then Qc_of_Z 2 else 0).
Proof.
  assert (Hd : np.pixel toy.block_depth 1 1 = Some (Qc_of_Z 2))
    by (vm_compute; reflexivity).
  assert (Hv : np.pixel toy.block_seg 1 1 = Some 5%Z) by reflexivity.
  split; [auto|].
  exact (masked_depth_pixels toy.block_depth toy.block_seg 5 1 1 (Qc_of_Z 2) 5 Hd Hv).
Defined.

(** X9.  In the masked colour image of an object, a pixel of the object
    is unchanged; in any other pixel the first three channels are zero
    and the channels after them (an alpha channel) keep their value. *)
Theorem masked_rgb_pixels (rgb_s : RgbImage) (seg_s : SegImage)
    (obj_id : Z) (r c : nat) (px : list Z) (v : Z) :
  np.pixel rgb_s r c = Some px ->
  (3 <= length px)%nat ->
  np.pixel seg_s r c = Some v ->
  np.pixel (mask_rgb rgb_s (np.eq_mask seg_s obj_id)) r c =
  Some (if (v =? obj_id)%Z then px else [0; 0; 0]%Z ++ skipn 3 px).
Proof.
  intros Hpx Hlen Hv. unfold mask_rgb, set_channel, np.where0, channel.
  cbn [seq fold_left].
  rewrite !pixel_zip_with, !pixel_map, !pixel_eq_mask, Hv, Hpx. cbn [option_map].
  destruct px as [|x0 [|x1 [|x2 rest]]]; cbn in Hlen; try lia.
  destruct (v =? obj_id)%Z; reflexivity.
Qed.

Lemma masked_rgb_pixels_witness :
  (np.pixel frames.pair_rgb 1 5 = Some [200; 100; 50; 255]%Z /\
   (3 <= length [200; 100; 50; 255]%Z)%nat /\
   np.pixel frames.pair_seg 1 5 = Some 0%Z) /\
  np.pixel (mask_rgb frames.pair_rgb (np.eq_mask frames.pair_seg 7)) 1 5 =
  Some (if (0 =? 7)%Z then [200; 100; 50; 255]%Z
        else [0; 0; 0]%Z ++ skipn 3 [200; 100; 50; 255]%Z).
Proof.
  assert (Hpx : np.pixel frames.pair_rgb 1 5 = Some [200; 100; 50; 255]%Z)
    by reflexivity.
  assert (Hlen : (3 <= length [200; 100; 50; 255]%Z)%nat) by (cbn; lia).
  assert (Hv : np.pixel frames.pair_seg 1 5 = Some 0%Z) by reflexivity.
  split; [auto|].
  exact (masked_rgb_pixels frames.pair_rgb frames.pair_seg 7 1 5 _ 0 Hpx Hlen Hv).
Defined.

(** ** Origin removal *)

Lemma select_not_all_zero {A} (P : np.mat) (a : list A) :
  length a = length P ->
  np.select (np.not_all_zero P) a =
  List.map snd (List.filter (fun pa => off_origin (fst pa)) (combine P a)).
Proof.
  revert a. induction P as [|p P IH]; intros [|x a] Hlen; try discriminate Hlen;
    [reflexivity|].
  cbn [np.not_all_zero List.map np.select combine List.filter fst].
  fold (np.not_all_zero P). fold (off_origin p).
  destruct (off_origin p); cbn [List.map snd]; rewrite IH by (cbn in Hlen; lia);
    reflexivity.
Qed.

Lemma select_not_all_zero_self (P : np.mat) :
  np.select (np.not_all_zero P) P = List.filter off_origin P.
Proof.
  induction P as [|p P IH]; [reflexivity|].
  cbn [np.not_all_zero List.map np.select List.filter].
  fold (np.not_all_zero P). fold (off_origin p).
  destruct (off_origin p); now rewrite IH.
Qed.

Lemma off_origin_nonzero (p : np.vec) :
  off_origin p = true <-> exists x : Qc, In x p /\ x <> 0.
Proof.
  unfold off_origin. rewrite negb_true_iff. split.
  - intros H. induction p as [|x p IH]; [discriminate H|].
    cbn in H. apply andb_false_iff in H as [H|H].
    + exists x. split; [now left|now apply Qc_eq_bool_false].
    + destruct (IH H) as (y & Hy & Hne). exists y. split; [now right|assumption].
  - intros (x & Hx & Hne).
    destruct (forallb _ p) eqn:E; [|reflexivity].
    rewrite forallb_forall in E. apply E, Qc_eq_bool_true in Hx. contradiction.
Qed.

(** X10.  When the cloud Open3D built for an object has one colour per
    point, the cloud of the object is that cloud with the origin points
    removed and nothing else changed: the points keep their order,
    every point left has a non-zero coordinate, and each point left
    keeps its own colour. *)
Theorem origin_points_removed `{o3d : Open3D} (rgb_s : RgbImage)
    (depth_s : DepthImage) (seg_s : SegImage) (intrinsic : Intrinsic) (obj_id : Z) :
  length (colors (raw_cloud rgb_s depth_s seg_s intrinsic obj_id)) =
  length (points (raw_cloud rgb_s depth_s seg_s intrinsic obj_id)) ->
  let raw := raw_cloud rgb_s depth_s seg_s intrinsic obj_id in
  let pcd := object_cloud rgb_s depth_s seg_s intrinsic obj_id in
  points pcd = List.filter off_origin (points raw) /\
  Forall (fun p => exists x : Qc, In x p /\ x <> 0) (points pcd) /\
  (length (points pcd) <= length (points raw))%nat /\
  combine (points pcd) (colors pcd) =
  List.filter (fun pc => off_origin (fst pc)) (combine (points raw) (colors raw)).
Proof.
  intros Hlen raw pcd.
  assert (Hpts : points pcd = List.filter off_origin (points raw))
    by apply select_not_all_zero_self.
  split; [assumption|]. split; [|split].
  - rewrite Hpts. apply List.Forall_forall. intros p Hp.
    apply filter_In in Hp as [_ Hp]. now apply off_origin_nonzero.
  - rewrite Hpts. apply List.filter_length_le.
  - rewrite Hpts.
    change (colors pcd) with (np.select (np.not_all_zero (points raw)) (colors raw)).
    fold raw in Hlen. rewrite (select_not_all_zero _ _ Hlen). clear Hpts pcd.
    revert Hlen. generalize (colors raw) as C. generalize (points raw) as P.
    induction P as [|p P IH]; intros [|c C] Hlen; try discriminate Hlen;
      [reflexivity|].
    cbn [combine List.filter fst]. cbn in Hlen.
    destruct (off_origin p); cbn [List.map snd combine];
      [f_equal|]; apply IH; lia.
Qed.

Lemma origin_points_removed_witness :
  let raw := raw_cloud (o3d := toy.o3d) toy.near_rgb toy.block_depth toy.block_seg
                       toy.intrinsic 5 in
  let pcd := object_cloud (o3d := toy.o3d) toy.near_rgb toy.block_depth toy.block_seg
                          toy.intrinsic 5 in
  length (colors raw) = length (points raw) /\
  points pcd = List.filter off_origin (points raw) /\
  Forall (fun p => exists x : Qc, In x p /\ x <> 0) (points pcd) /\
  (length (points pcd) <= length (points raw))%nat /\
  combine (points pcd) (colors pcd) =
  List.filter (fun pc => off_origin (fst pc)) (combine (points raw) (colors raw)).
Proof.
  intros raw pcd.
  assert (Hlen : length (colors raw) = length (points raw))
    by (vm_compute; reflexivity).
  split; [exact Hlen|].
  exact (origin_points_removed (o3d := toy.o3d) toy.near_rgb toy.block_depth
           toy.block_seg toy.intrinsic 5 Hlen).
Defined.

(** ** Object colours *)

Lemma this_fmod1 (x : Qc) : (this (fmod1 x) == this x - inject_Z (Qfloor x))%Q.
Proof. unfold fmod1. cbn. rewrite !Qred_correct. reflexivity. Qed.

Lemma fmod1_range (x : Qc) : 0 <= fmod1 x /\ fmod1 x < 1.
Proof.
  pose proof (Qfloor_le x) as Hlo. pose proof (Qlt_floor x) as Hhi.
  rewrite inject_Z_plus in Hhi.
  unfold Qcle, Qclt. rewrite this_fmod1.
  change (this 0) with 0%Q. change (this 1) with 1%Q.
  change (inject_Z 1) with 1%Q in Hhi. split; lra.
Qed.

(** X11.  Every channel of the colour assigned to an object lies in
    [0, 1). *)
Theorem object_color_in_unit_interval (obj_id : Z) :
  length (object_color obj_id) = 3%nat /\
  Forall (fun ch : Qc => 0 <= ch /\ ch < 1) (object_color obj_id).
Proof.
  split; [reflexivity|]. unfold object_color.
  repeat (apply Forall_cons; split; [apply fmod1_range|]). apply Forall_nil. exact I.
Qed.

(** ** Centroids and transforms *)

Lemma Qc_of_nat_S (n : nat) : Qc_of_nat (Datatypes.S n) = Qc_of_nat n + 1.
Proof.
  apply Qc_is_canon. unfold Qc_of_nat. cbn -[Z.of_nat].
  rewrite !Qred_correct, Nat2Z.inj_succ. unfold Z.succ. rewrite inject_Z_plus.
  reflexivity.
Qed.

Lemma Qc_of_nat_S_nonzero (n : nat) : Qc_of_nat (Datatypes.S n) <> 0.
Proof.
  unfold Qc_of_nat. intros H. apply Q2Qc_eq_iff in H.
  unfold Qeq in H. cbn -[Z.of_nat] in H. lia.
Qed.

(** The column sums of a cloud and of its image under a 4 x 4 matrix. *)
Lemma world_column_sums (a0 a1 a2 a3 b0 b1 b2 b3 c0 c1 c2 c3 d0 d1 d2 d3 : Qc)
    (P : np.mat) :
  Forall (fun p => length p = 3%nat) P ->
  let M := [[a0; a1; a2; a3]; [b0; b1; b2; b3]; [c0; c1; c2; c3]; [d0; d1; d2; d3]] in
  exists sx sy sz : Qc,
    fold_right np.vadd [0; 0; 0] P = [sx; sy; sz] /\
    fold_right np.vadd [0; 0; 0] (List.map (to_world_point M) P) =
    [a0 * sx + a1 * sy + a2 * sz + a3 * Qc_of_nat (length P);
     b0 * sx + b1 * sy + b2 * sz + b3 * Qc_of_nat (length P);
     c0 * sx + c1 * sy + c2 * sz + c3 * Qc_of_nat (length P)].
Proof.
  intros HP M. induction P as [|p P IH].
  - exists 0, 0, 0. split; [reflexivity|].
    change (Qc_of_nat (length (@nil (list Qc)))) with 0.
    cbn -[Qcplus Qcmult]. vec_eq; ring.
  - apply Forall_cons in HP as [Hp HP]. destruct (IH HP) as (sx & sy & sz & Hs & Hw).
    destruct p as [|x [|y [|z [|? ?]]]]; try discriminate Hp.
    exists (x + sx), (y + sy), (z + sz).
    cbn [fold_right List.map length]. rewrite Hs, Hw, Qc_of_nat_S.
    split; [reflexivity|]. cbn -[Qcplus Qcmult Qc_of_nat]. vec_eq; ring.
Qed.

(** X13.  The world image of the centroid of a cloud is the centroid of
    the world images of its points: the coordinate frame of an object
    sits at the centroid of the cloud shown with it. *)
Theorem world_centroid_is_centroid_of_world_points (M : np.mat) (P : np.mat) :
  np.has_shape 4 4 M ->
  P <> [] ->
  Forall (fun p => length p = 3%nat) P ->
  to_world_point M (np.mean0 P) = np.mean0 (List.map (to_world_point M) P).
Proof.
  intros HM Hne HP.
  apply has_shape_44 in HM
    as (a0&a1&a2&a3&b0&b1&b2&b3&c0&c1&c2&c3&d0&d1&d2&d3&->).
  destruct (world_column_sums a0 a1 a2 a3 b0 b1 b2 b3 c0 c1 c2 c3 d0 d1 d2 d3 P HP)
    as (sx & sy & sz & Hs & Hw).
  unfold np.mean0. rewrite Hs, Hw, length_map.
  fold (Qc_of_nat (length P)).
  destruct P as [|p P]; [contradiction|].
  pose proof (Qc_of_nat_S_nonzero (length P)) as Hn.
  clear Hs Hw. unfold Qc_of_nat, np.vec, np.mat in *.
  cbn -[Qcplus Qcmult Qcdiv Q2Qc inject_Z Z.of_nat] in *. revert Hn.
  generalize (Q2Qc (inject_Z (Z.of_nat (Datatypes.S (length P))))) as n. intros n Hn.
  vec_eq; field; exact Hn.
Qed.

Lemma world_centroid_is_centroid_of_world_points_witness :
  let P := [[Qc_of_Z 1; Qc_of_Z 2; Qc_of_Z 3]; [Qc_of_Z 5; 0; -(1)]] in
  (np.has_shape 4 4 scene.rigid_view /\ P <> [] /\
   Forall (fun p => length p = 3%nat) P) /\
  to_world_point scene.rigid_view (np.mean0 P) =
  np.mean0 (List.map (to_world_point scene.rigid_view) P).
Proof.
  intros P.
  assert (HM : np.has_shape 4 4 scene.rigid_view)
    by (split; [reflexivity|repeat constructor]).
  assert (Hne : P <> []) by discriminate.
  assert (HP : Forall (fun p => length p = 3%nat) P) by (repeat constructor).
  split; [auto|].
  exact (world_centroid_is_centroid_of_world_points scene.rigid_view P HM Hne HP).
Defined.

(** ** The identity view *)

Lemma linalg_inv_eye4 : np.linalg_inv np.eye4 = inl np.eye4.
Proof.
  destruct (np.linalg_inv np.eye4) as [Mi|e] eqn:E.
  - f_equal. apply linalg_inv_inl in E as [_ ->].
    unfold np.eye4.
    repeat (apply (f_equal2 (@cons (list Qc)))); try reflexivity;
      apply array_equal_true; vm_compute; reflexivity.
  - exfalso. apply linalg_inv_inr in E as [E _]. revert E.
    apply Qc_eq_bool_false. vm_compute. reflexivity.
Qed.

Lemma to_world_rotation_identity (Rc : np.mat) :
  np.has_shape 3 3 Rc -> to_world_rotation np.eye4 Rc = Rc.
Proof.
  intros HR. apply has_shape_33 in HR as (r0&r1&r2&s0&s1&s2&t0&t1&t2&->).
  cbn -[Qcplus Qcmult].
  repeat (apply (f_equal2 (@cons (list Qc)))); try reflexivity; vec_eq; ring.
Qed.

(** X14.  With the identity as view matrix, which the inversion returns
    unchanged, the perception pass does not raise, and a record has the
    same position and the same orientation in the world frame as in the
    camera frame. *)
Theorem identity_view_keeps_poses `{o3d : Open3D} `{linalg : LinAlg}
    (intrinsic : Intrinsic)
    (rgb_s : RgbImage) (depth_s : DepthImage) (seg_s : SegImage)
    (obj_id : Z) (d : PoseDict) (pc : np.vec) (oc : np.mat) :
  inv np.eye4 = inl np.eye4 ->
  timestep_object_poses (object_loop rgb_s depth_s seg_s intrinsic np.eye4) !! obj_id
    = Some d ->
  dict_get d "position_camera" = Some (PArr1 pc) ->
  length pc = 3%nat ->
  dict_get d "orientation_camera" = Some (PArr2 oc) ->
  np.has_shape 3 3 oc ->
  perceive_frame intrinsic (rgb_s, depth_s, seg_s) identity_viewMat =
    inl (object_loop rgb_s depth_s seg_s intrinsic np.eye4) /\
  dict_get d "position_world" = Some (PArr1 pc) /\
  dict_get d "orientation_world" = Some (PArr2 oc).
Proof.
  intros Hinv Hd Hpc Hlen Hoc Hshape. split.
  { unfold perceive_frame. change (np.reshape44 identity_viewMat) with (ret np.eye4).
    cbn [bind ret]. now rewrite Hinv. }
  rewrite frame_result_lookup in Hd.
  apply object_pose_Some in Hd as (_ & _ & _ & pcd & _ & _ & ->).
  unfold fitted_pose in *.
  destruct (get_oriented_bounding_box pcd) as [obb|err];
    injection Hpc as <-; injection Hoc as <-; split.
  - transitivity (Some (PArr1 (to_world_point np.eye4 (np.mean0 (points pcd)))));
      [reflexivity|now rewrite to_world_point_identity].
  - transitivity (Some (PArr2 (to_world_rotation np.eye4 (R obb))));
      [reflexivity|now rewrite to_world_rotation_identity].
  - transitivity (Some (PArr1 (to_world_point np.eye4 (np.mean0 (points pcd)))));
      [reflexivity|now rewrite to_world_point_identity].
  - transitivity (Some (PArr2 (to_world_rotation np.eye4 np.eye3)));
      [reflexivity|now rewrite to_world_rotation_identity].
Qed.

Lemma has_shape_of_bool (r c : nat) (M : np.mat) :
  (length M =? r)%nat && forallb (fun row => (length row =? c)%nat) M = true ->
  np.has_shape r c M.
Proof.
  intros [Hr Hc]%andb_prop. split; [now apply Nat.eqb_eq|].
  apply List.Forall_forall. intros row Hrow.
  rewrite forallb_forall in Hc. now apply Nat.eqb_eq, Hc.
Qed.

Lemma identity_view_keeps_poses_witness :
  let frame := object_loop (o3d := toy.o3d) scene.patch_rgb scene.patch_depth
                           scene.patch_seg toy.intrinsic np.eye4 in
  let d := default [] (timestep_object_poses frame !! 3%Z) in
  let pc := match dict_get d "position_camera" with
            | Some (PArr1 v) => v
            | _ => []
            end in
  let oc := match dict_get d "orientation_camera" with
            | Some (PArr2 m) => m
            | _ => []
            end in
  (inv (LinAlg := exact_inverse) np.eye4 = inl np.eye4 /\
   timestep_object_poses frame !! 3%Z = Some d /\
   dict_get d "position_camera" = Some (PArr1 pc) /\
   length pc = 3%nat /\
   dict_get d "orientation_camera" = Some (PArr2 oc) /\
   np.has_shape 3 3 oc) /\
  perceive_frame (o3d := toy.o3d) (linalg := exact_inverse) toy.intrinsic
    (scene.patch_rgb, scene.patch_depth, scene.patch_seg) identity_viewMat = inl frame /\
  dict_get d "position_world" = Some (PArr1 pc) /\
  dict_get d "orientation_world" = Some (PArr2 oc).
Proof.
  intros frame d pc oc.
  assert (Hinv : inv (LinAlg := exact_inverse) np.eye4 = inl np.eye4)
    by exact linalg_inv_eye4.
  assert (Hd : timestep_object_poses frame !! 3%Z = Some d).
  { unfold d. destruct (timestep_object_poses frame !! 3%Z) eqn:E;
      [reflexivity|]. vm_compute in E. discriminate E. }
  assert (Hpc : dict_get d "position_camera" = Some (PArr1 pc))
    by (vm_compute; reflexivity).
  assert (Hlen : length pc = 3%nat) by (vm_compute; reflexivity).
  assert (Hoc : dict_get d "orientation_camera" = Some (PArr2 oc))
    by (vm_compute; reflexivity).
  assert (Hshape : np.has_shape 3 3 oc)
    by (apply has_shape_of_bool; vm_compute; reflexivity).
  split; [auto 10|].
  exact (identity_view_keeps_poses (o3d := toy.o3d) (linalg := exact_inverse)
           toy.intrinsic scene.patch_rgb scene.patch_depth scene.patch_seg
           3 d pc oc Hinv Hd Hpc Hlen Hoc Hshape).
Defined.

(** X15.  In a fallback record the world orientation is the top-left
    3 x 3 block of the inverse view matrix itself. *)
Theorem fallback_orientation_is_view_block `{o3d : Open3D} (rgb_s : RgbImage)
    (depth_s : DepthImage) (seg_s : SegImage) (intrinsic : Intrinsic)
    (stat_viewMat_inv : np.mat) (obj_id : Z) (pcd : PointCloud) (e : Exn) :
  np.has_shape 4 4 stat_viewMat_inv ->
  In obj_id (object_ids seg_s) ->
  (10 <= length (points (object_cloud rgb_s depth_s seg_s intrinsic obj_id)))%nat ->
  filter_cloud (object_cloud rgb_s depth_s seg_s intrinsic obj_id) = inl pcd ->
  (0 < length (points pcd))%nat ->
  get_oriented_bounding_box pcd = inr e ->
  exists d : PoseDict,
    timestep_object_poses
      (object_loop rgb_s depth_s seg_s intrinsic stat_viewMat_inv) !! obj_id = Some d /\
    dict_get d "orientation_world" = Some (PArr2 (np.block33 stat_viewMat_inv)).
Proof.
  intros HM Hid Hten Hf Hne Hobb.
  exists (fitted_pose stat_viewMat_inv pcd). split.
  { rewrite frame_result_lookup. apply object_pose_Some.
    apply object_ids_In in Hid as [Hin Hpos].
    split; [assumption|]. split; [now apply any_eq_mask|]. split; [assumption|].
    exists pcd. auto. }
  unfold fitted_pose. rewrite Hobb. cbn [fallback_record dict_get String.eqb].
  apply has_shape_44 in HM
    as (a0&a1&a2&a3&b0&b1&b2&b3&c0&c1&c2&c3&d0&d1&d2&d3&->).
  cbn -[Qcplus Qcmult]. do 2 f_equal.
  repeat (apply (f_equal2 (@cons (list Qc)))); try reflexivity; vec_eq; ring.
Qed.

Lemma fallback_orientation_is_view_block_witness :
  let cloud := object_cloud (o3d := toy.o3d) toy.line_rgb toy.line_depth
                            toy.line_seg toy.intrinsic 7 in
  let pcd := scene.value scene.no_cloud (filter_cloud (o3d := toy.o3d) cloud) in
  let e := Open3DError "initial simplex is flat" in
  (np.has_shape 4 4 scene.rigid_view_inv /\
   In 7%Z (object_ids toy.line_seg) /\
   (10 <= length (points cloud))%nat /\
   filter_cloud (o3d := toy.o3d) cloud = inl pcd /\
   (0 < length (points pcd))%nat /\
   get_oriented_bounding_box (Open3D := toy.o3d) pcd = inr e) /\
  exists d : PoseDict,
    timestep_object_poses scene.line_frame_rigid !! 7%Z = Some d /\
    dict_get d "orientation_world" = Some (PArr2 (np.block33 scene.rigid_view_inv)).
Proof.
  intros cloud pcd e.
  assert (HM : np.has_shape 4 4 scene.rigid_view_inv).
  { split; [vm_compute; reflexivity|].
    unfold scene.rigid_view_inv.
    destruct (np.linalg_inv scene.rigid_view) as [Mi|err] eqn:E; [|repeat constructor].
    apply linalg_inv_inl in E as [_ ->]. repeat constructor. }
  assert (Hid : In 7%Z (object_ids toy.line_seg)) by (vm_compute; auto).
  assert (Hten : (10 <= length (points cloud))%nat)
    by (apply Nat.leb_le; vm_compute; reflexivity).
  assert (Hf : filter_cloud (o3d := toy.o3d) cloud = inl pcd).
  { apply value_inl. intros e' He. vm_compute in He. discriminate He. }
  assert (Hne : (0 < length (points pcd))%nat)
    by (apply Nat.ltb_lt; vm_compute; reflexivity).
  assert (Hobb : get_oriented_bounding_box (Open3D := toy.o3d) pcd = inr e)
    by (vm_compute; reflexivity).
  split; [auto 10|].
  exact (fallback_orientation_is_view_block (o3d := toy.o3d) toy.line_rgb
           toy.line_depth toy.line_seg toy.intrinsic scene.rigid_view_inv 7 pcd e
           HM Hid Hten Hf Hne Hobb).
Defined.

(** ** Arrays that cannot be reshaped *)

Lemma reshape44_inr (xs : list Qc) (e : Exn) :
  np.reshape44 xs = inr e <-> length xs <> 16%nat /\ e = ValueError.
Proof.
  split.
  - intros H. unfold np.reshape44 in H.
    do 16 (destruct xs as [|? xs]; [injection H as <-; split; [discriminate|reflexivity]|]).
    destruct xs; [discriminate H|]. injection H as <-. split; [discriminate|reflexivity].
  - intros [Hlen ->]. unfold np.reshape44.
    do 16 (destruct xs as [|? xs]; [reflexivity|]).
    destruct xs; [now destruct Hlen|reflexivity].
Qed.

(** ** Keys of the run dictionary *)

Section RunExtras.

Context `{o3d : Open3D} `{linalg : LinAlg} {S : Type} `{simulator : Simulator S}.
Variable intrinsic : Intrinsic.

Lemma steps_keys (obj_name : string) (tstep : nat) (steps : list nat)
    (rs rs' : RunState S) :
  for_each steps (step_body intrinsic obj_name tstep) rs = inl rs' ->
  dom (all_object_poses rs') =
  dom (all_object_poses rs) ∪
  list_to_set (List.map (frame_key obj_name tstep)
                 (List.filter (fun i => (i mod 100 =? 0)%nat) steps)) /\
  sim rs' = Nat.iter (length steps) step (sim rs).
Proof.
  revert rs. induction steps as [|i steps IH]; intros rs Hrun.
  - injection Hrun as <-. split; [|reflexivity].
    cbn [List.filter List.map]. now rewrite list_to_set_nil, (right_id_L ∅ (∪)).
  - cbn [for_each] in Hrun.
    destruct (step_body intrinsic obj_name tstep i rs) as [rs1|e] eqn:Hstep;
      [|discriminate Hrun].
    cbn [bind] in Hrun. destruct (IH _ Hrun) as [Hdom Hsim].
    unfold step_body in Hstep. cbn [List.filter length].
    rewrite Nat.iter_succ_r.
    destruct (i mod 100 =? 0)%nat; cbn [negb] in Hstep.
    + destruct (perceive_frame _ _ _) as [fs|e]; [|discriminate Hstep].
      injection Hstep as <-. cbn [all_object_poses sim] in *.
      rewrite Hdom, Hsim, dom_insert_L. cbn [List.map].
      rewrite list_to_set_cons, !(assoc_L (∪)),
        (comm_L (∪) _ {[frame_key obj_name tstep i]}).
      split; reflexivity.
    + injection Hstep as <-. cbn [all_object_poses sim] in *.
      rewrite Hdom, Hsim. split; reflexivity.
Qed.

Lemma trials_keys (obj_name : string) (tsteps : list nat) (rs rs' : RunState S) :
  for_each tsteps (trial_body intrinsic obj_name) rs = inl rs' ->
  dom (all_object_poses rs') =
  dom (all_object_poses rs) ∪ list_to_set (flat_map (trial_keys obj_name) tsteps).
Proof.
  revert rs. induction tsteps as [|t tsteps IH]; intros rs Hrun.
  - injection Hrun as <-. cbn [flat_map].
    now rewrite list_to_set_nil, (right_id_L ∅ (∪)).
  - cbn [for_each] in Hrun.
    destruct (trial_body intrinsic obj_name t rs) as [rs1|e] eqn:Htrial;
      [|discriminate Hrun].
    cbn [bind] in Hrun. rewrite (IH _ Hrun).
    unfold trial_body in Htrial. apply steps_keys in Htrial as [Hdom _].
    cbn [all_object_poses] in Hdom. rewrite Hdom.
    cbn [flat_map]. rewrite list_to_set_app_L, (assoc_L (∪)).
    unfold trial_keys, perceived_steps. reflexivity.
Qed.

Lemma objects_keys (obj_names : list string) (rs rs' : RunState S) :
  for_each obj_names (object_body intrinsic) rs = inl rs' ->
  dom (all_object_poses rs') =
  dom (all_object_poses rs) ∪ list_to_set (run_keys obj_names).
Proof.
  revert rs. induction obj_names as [|name names IH]; intros rs Hrun.
  - injection Hrun as <-. unfold run_keys. cbn [flat_map].
    now rewrite list_to_set_nil, (right_id_L ∅ (∪)).
  - cbn [for_each] in Hrun.
    destruct (object_body intrinsic name rs) as [rs1|e] eqn:Hobj;
      [|discriminate Hrun].
    cbn [bind] in Hrun. rewrite (IH _ Hrun).
    unfold object_body in Hobj. rewrite (trials_keys _ _ _ _ Hobj).
    unfold run_keys. cbn [flat_map]. rewrite list_to_set_app_L, (assoc_L (∪)).
    unfold object_keys. reflexivity.
Qed.


End RunExtras.

(** X17.  When [run_exp] returns, the keys of its dictionary are exactly
    the keys of the perceived frames: one for every object name, every
    trial below 10 and every step below 10000 that is a multiple of
    100, a hundred steps per trial. *)
Theorem run_exp_keys `{o3d : Open3D} `{linalg : LinAlg} {S : Type}
    `{simulator : Simulator S} (sim0 : S) (obj_names : list string) (poses : gmap string (gmap Z PoseDict)) :
  run_exp sim0 obj_names = inl poses ->
  dom poses = list_to_set (run_keys obj_names) /\
  (forall key : string,
     key ∈ dom poses <->
     exists (obj_name : string) (tstep i : nat),
       In obj_name obj_names /\ (tstep < 10)%nat /\ (i < 10000)%nat /\
       (i mod 100 = 0)%nat /\ key = frame_key obj_name tstep i) /\
  length perceived_steps = 100%nat.
Proof.
  intros Hrun. unfold run_exp in Hrun.
  destruct (intrinsics_builder (projection_matrix sim0)) as [intr|e];
    [|discriminate Hrun].
  cbn [bind] in Hrun.
  destruct (for_each obj_names (object_body intr) _) as [rs|e] eqn:Hloop;
    [|discriminate Hrun].
  injection Hrun as <-. apply objects_keys in Hloop.
  cbn [all_object_poses] in Hloop. rewrite dom_empty_L, (left_id_L ∅ (∪)) in Hloop.
  split; [assumption|]. split; [|vm_compute; reflexivity].
  intros key. rewrite Hloop, elem_of_list_to_set, list_elem_of_In.
  unfold run_keys, object_keys, trial_keys, perceived_steps.
  rewrite in_flat_map. split.
  - intros (name & Hname & Hkey). apply in_flat_map in Hkey as (t & Ht & Hkey).
    apply in_map_iff in Hkey as (i & <- & Hi). apply filter_In in Hi as [Hi Hmod].
    apply in_seq in Ht, Hi. apply Nat.eqb_eq in Hmod.
    exists name, t, i. repeat split; try assumption; lia.
  - intros (name & t & i & Hname & Ht & Hi & Hmod & ->).
    exists name. split; [assumption|]. apply in_flat_map. exists t.
    split; [apply in_seq; lia|]. apply in_map. apply filter_In.
    split; [apply in_seq; lia|now apply Nat.eqb_eq].
Qed.

(** ** Frame keys *)

Lemma list_ascii_app (a b : string) :
  list_ascii_of_string (a +:+ b) = list_ascii_of_string a ++ list_ascii_of_string b.
Proof. induction a as [|c a IH]; simpl; [reflexivity|now rewrite IH]. Qed.

Lemma pretty_N_go_no_underscore (x : N) (s : string) :
  ~ In underscore (list_ascii_of_string s) ->
  ~ In underscore (list_ascii_of_string (pretty_N_go x s)).
Proof.
  revert s. induction (N.lt_wf_0 x) as [x _ IH]; intros s Hs.
  assert (x = 0 \/ 0 < x)%N as [->|Hx] by lia.
  - now rewrite pretty_N_go_0.
  - rewrite pretty_N_go_step by assumption. apply IH.
    + now apply N.div_lt.
    + simpl. intros [Hc|Hin]; [|contradiction].
      revert Hc. unfold pretty_N_char, underscore.
      repeat case_match; discriminate.
Qed.

Lemma pretty_nat_no_underscore (n : nat) :
  ~ In underscore (list_ascii_of_string (pretty n)).
Proof.
  unfold pretty, pretty_nat, pretty, pretty_N.
  destruct (decide (N.of_nat n = 0%N)).
  - simpl. intros [H|[]]. discriminate H.
  - apply pretty_N_go_no_underscore. simpl. tauto.
Qed.

Lemma split_at_first (u u' v v' : list ascii) :
  ~ In underscore u -> ~ In underscore u' ->
  u ++ underscore :: v = u' ++ underscore :: v' -> u = u' /\ v = v'.
Proof.
  revert u'. induction u as [|c u IH]; intros [|c' u'] Hu Hu' Heq; simpl in *.
  - injection Heq as ->. auto.
  - injection Heq as <- _. tauto.
  - injection Heq as -> _. tauto.
  - injection Heq as -> Heq. destruct (IH u') as [-> ->]; auto.
Qed.

Lemma split_at_last (a a' b b' : list ascii) :
  ~ In underscore b -> ~ In underscore b' ->
  a ++ underscore :: b = a' ++ underscore :: b' -> a = a' /\ b = b'.
Proof.
  intros Hb Hb' Heq. apply (f_equal (@rev ascii)) in Heq.
  rewrite !rev_app_distr in Heq. simpl in Heq. rewrite <- !app_assoc in Heq.
  simpl in Heq. apply split_at_first in Heq as [Hb1 Ha1].
  - apply (f_equal (@rev ascii)) in Hb1, Ha1. rewrite !rev_involutive in *. auto.
  - now rewrite <- in_rev.
  - now rewrite <- in_rev.
Qed.

Lemma regroup (a b rest : list ascii) (c : ascii) :
  a ++ c :: (b ++ rest) = (a ++ c :: b) ++ rest.
Proof. now rewrite <- app_assoc. Qed.

Lemma list_ascii_inj (s s' : string) :
  list_ascii_of_string s = list_ascii_of_string s' -> s = s'.
Proof.
  intros H. apply (f_equal string_of_list_ascii) in H.
  now rewrite !string_of_list_ascii_of_string in H.
Qed.

Lemma frame_key_inj (obj_name obj_name' : string) (tstep tstep' i i' : nat) :
  frame_key obj_name tstep i = frame_key obj_name' tstep' i' ->
  obj_name = obj_name' /\ tstep = tstep' /\ i = i'.
Proof.
  intros Hkey. apply (f_equal list_ascii_of_string) in Hkey.
  unfold frame_key in Hkey. rewrite !list_ascii_app in Hkey.
  change (list_ascii_of_string "_") with [underscore] in Hkey.
  cbn [app] in Hkey. rewrite !regroup in Hkey.
  apply split_at_last in Hkey as [Hhead Hi]; try apply pretty_nat_no_underscore.
  apply split_at_last in Hhead as [Hname Ht]; try apply pretty_nat_no_underscore.
  apply list_ascii_inj in Hname, Ht, Hi.
  apply (inj pretty) in Ht, Hi. auto.
Qed.

(** X19.  The key of a frame determines the frame: two frames with the
    same key have the same object name, the same trial and the same
    step, whatever characters the names contain. *)
Theorem frame_key_injective (obj_name obj_name' : string) (tstep tstep' i i' : nat) :
  frame_key obj_name tstep i = frame_key obj_name' tstep' i' ->
  obj_name = obj_name' /\ tstep = tstep' /\ i = i'.
Proof. apply frame_key_inj. Qed.

Lemma frame_key_injective_witness :
  frame_key "YcbBanana" 3 200 = frame_key "YcbBanana" 3 200 /\
  ("YcbBanana" = "YcbBanana" /\ 3%nat = 3%nat /\ 200%nat = 200%nat).
Proof.
  split; [reflexivity|].
  exact (frame_key_injective "YcbBanana" "YcbBanana" 3 3 200 200 eq_refl).
Defined.

(** ** Loops that return *)

Lemma for_each_total {A St} (xs : list A) (body : A -> St -> Raises St) :
  (forall x st, exists st', body x st = inl st') ->
  forall st, exists st', for_each xs body st = inl st'.
Proof.
  intros Hbody. induction xs as [|x xs IH]; intros st; cbn [for_each].
  - exists st. reflexivity.
  - destruct (Hbody x st) as [st1 ->]. cbn [bind]. apply IH.
Qed.

Section RunReturns.

Context `{o3d : Open3D} `{linalg : LinAlg} {S : Type} `{simulator : Simulator S}.

Hypothesis views_inverted :
  forall s : S, exists V Minv : np.mat,
    np.reshape44 (stat_viewMat s) = inl V /\ inv V = inl Minv.

Lemma step_body_total (intrinsic : Intrinsic) (obj_name : string) (tstep i : nat)
    (rs : RunState S) :
  exists rs', step_body intrinsic obj_name tstep i rs = inl rs'.
Proof.
  unfold step_body. destruct (negb (i mod 100 =? 0)%nat); [eexists; reflexivity|].
  destruct (views_inverted (step (sim rs))) as (V & Minv & HV & HI).
  unfold perceive_frame. destruct (get_static_renders _) as [[rgb depth] seg].
  rewrite HV. cbn [bind]. rewrite HI.
  cbn [bind ret]. eexists; reflexivity.
Qed.

Lemma objects_loop_total (intrinsic : Intrinsic) (obj_names : list string)
    (rs : RunState S) :
  exists rs', for_each obj_names (object_body intrinsic) rs = inl rs'.
Proof.
  apply for_each_total. intros name rs0. unfold object_body. apply for_each_total.
  intros t rs1. unfold trial_body. apply for_each_total.
  intros i rs2. apply step_body_total.
Qed.

End RunReturns.

(** X21.  When the projection matrix does not have sixteen entries, the
    intrinsics cannot be read: the reshape of line 31 raises ValueError
    and [run_exp] ends with it, returning no dictionary, whatever the
    object names, the simulator and the libraries are. *)
Theorem run_exp_bad_projection `{o3d : Open3D} `{linalg : LinAlg} {S : Type}
    `{simulator : Simulator S} (sim0 : S) (obj_names : list string) :
  length (projection_matrix sim0) <> 16%nat ->
  run_exp sim0 obj_names = inr ValueError /\
  intrinsics_builder (projection_matrix sim0) = inr ValueError.
Proof.
  intros Hlen.
  assert (H : np.reshape44 (projection_matrix sim0) = inr ValueError)
    by (apply reshape44_inr; auto).
  unfold run_exp, intrinsics_builder. rewrite H. split; reflexivity.
Qed.

(** ** The size of a run *)

Lemma NoDup_flat_map {A B} (f : A -> list B) (l : list A) :
  List.NoDup l ->
  (forall x, In x l -> List.NoDup (f x)) ->
  (forall x y b, In x l -> In y l -> In b (f x) -> In b (f y) -> x = y) ->
  List.NoDup (flat_map f l).
Proof.
  induction 1 as [|x l Hx Hl IH]; intros Hf Hdisj; cbn [flat_map]; [constructor|].
  apply List.NoDup_app.
  - apply Hf. now left.
  - apply IH; [intros; apply Hf; now right|].
    intros y z b Hy Hz. apply Hdisj; now right.
  - intros b Hb Hin. apply in_flat_map in Hin as (y & Hy & Hby).
    assert (x = y) by (apply (Hdisj x y b); auto; [now left|now right]).
    subst y. contradiction.
Qed.

Lemma perceived_steps_eq :
  perceived_steps = List.filter (fun i => (i mod 100 =? 0)%nat) (seq 0 10000).
Proof. unfold perceived_steps. reflexivity. Qed.

Lemma trial_keys_eq (obj_name : string) (tstep : nat) :
  trial_keys obj_name tstep = List.map (frame_key obj_name tstep) perceived_steps.
Proof. unfold trial_keys. reflexivity. Qed.

Lemma object_keys_eq (obj_name : string) :
  object_keys obj_name = flat_map (trial_keys obj_name) (seq 0 10).
Proof. unfold object_keys. reflexivity. Qed.

Lemma trial_keys_In (obj_name : string) (tstep : nat) (key : string) :
  In key (trial_keys obj_name tstep) ->
  exists i : nat, key = frame_key obj_name tstep i.
Proof.
  rewrite trial_keys_eq. intros H. apply in_map_iff in H as (i & Hi & _).
  exists i. now symmetry.
Qed.

Lemma object_keys_In (obj_name : string) (key : string) :
  In key (object_keys obj_name) ->
  exists tstep i : nat, key = frame_key obj_name tstep i.
Proof.
  rewrite object_keys_eq. intros H. apply in_flat_map in H as (t & _ & H).
  apply trial_keys_In in H as [i Hi]. eauto.
Qed.

Lemma run_keys_NoDup (obj_names : list string) :
  List.NoDup obj_names -> List.NoDup (run_keys obj_names).
Proof.
  intros Hnames. unfold run_keys. apply NoDup_flat_map; [assumption| |].
  - intros name _. rewrite object_keys_eq. apply NoDup_flat_map.
    + apply seq_NoDup.
    + intros t _. rewrite trial_keys_eq. apply Injective_map_NoDup.
      * intros i i' H. apply frame_key_inj in H as (_ & _ & H). exact H.
      * rewrite perceived_steps_eq. apply List.NoDup_filter. apply seq_NoDup.
    + intros t t' b _ _ Hb Hb'.
      apply trial_keys_In in Hb as [i Hi]. apply trial_keys_In in Hb' as [i' Hi'].
      rewrite Hi' in Hi. apply frame_key_inj in Hi as (_ & H & _).
      now symmetry.
  - intros name name' b _ _ Hb Hb'.
    apply object_keys_In in Hb as (t & i & Hi).
    apply object_keys_In in Hb' as (t' & i' & Hi').
    rewrite Hi' in Hi. apply frame_key_inj in Hi as (H & _ & _).
    now symmetry.
Qed.

Lemma length_run_keys (obj_names : list string) :
  length (run_keys obj_names) = (1000 * length obj_names)%nat.
Proof.
  assert (Htrial : forall name t, length (trial_keys name t) = 100%nat).
  { intros name t. rewrite trial_keys_eq, length_map. vm_compute. reflexivity. }
  assert (Hobj : forall name, length (object_keys name) = 1000%nat).
  { intros name. rewrite object_keys_eq. generalize (seq 0 10) (length_seq 10 0).
    intros l Hl.
    assert (H : length (flat_map (trial_keys name) l) = (100 * length l)%nat).
    { clear Hl. induction l as [|t l IH]; [reflexivity|].
      cbn [flat_map]. rewrite length_app, Htrial, IH. cbn [length]. lia. }
    rewrite H, Hl. reflexivity. }
  unfold run_keys. induction obj_names as [|name names IH]; [reflexivity|].
  cbn [flat_map]. rewrite length_app, Hobj, IH. cbn [length]. lia.
Qed.

(** X22.  A run over distinct object names that returns holds exactly
    a thousand frame results per object name: no frame result is
    overwritten. *)
Theorem run_exp_size `{o3d : Open3D} `{linalg : LinAlg} {S : Type}
    `{simulator : Simulator S} (sim0 : S) (obj_names : list string) (poses : gmap string (gmap Z PoseDict)) :
  List.NoDup obj_names ->
  run_exp sim0 obj_names = inl poses ->
  size poses = (1000 * length obj_names)%nat.
Proof.
  intros Hnames Hrun.
  assert (Hdom : dom poses = list_to_set (run_keys obj_names)).
  { unfold run_exp in Hrun.
    destruct (intrinsics_builder (projection_matrix sim0)) as [intr|e];
      [|discriminate Hrun].
    cbn [bind] in Hrun.
    destruct (for_each obj_names (object_body intr) _) as [rs|e] eqn:Hloop;
      [|discriminate Hrun].
    injection Hrun as <-. apply objects_keys in Hloop.
    cbn [all_object_poses] in Hloop.
    now rewrite dom_empty_L, (left_id_L ∅ (∪)) in Hloop. }
  rewrite <- size_dom, Hdom, size_list_to_set, length_run_keys; [reflexivity|].
  apply NoDup_ListNoDup, run_keys_NoDup, Hnames.
Qed.

(** ** A run that returns *)

Lemma steady_views (s : nat) :
  exists V Minv : np.mat,
    np.reshape44 (stat_viewMat (Simulator := runs.steady_simulator) s) = inl V /\
    inv (LinAlg := exact_inverse) V = inl Minv.
Proof.
  exists scene.rigid_view, scene.rigid_view_inv. split; [reflexivity|].
  exact rigid_view_inv_ok.
Qed.

Lemma steady_run_returns :
  exists poses : gmap string (gmap Z PoseDict),
    run_exp (o3d := toy.o3d) (linalg := exact_inverse) (simulator := runs.steady_simulator) 0%nat
            ["YcbBanana"%string] = inl poses.
Proof.
  unfold run_exp.
  change (intrinsics_builder (projection_matrix (Simulator := runs.steady_simulator)
                                0%nat))
    with (intrinsics_builder scene.projection).
  destruct (intrinsics_builder scene.projection) as [intr|e] eqn:E;
    [|discriminate E].
  cbn [bind].
  destruct (objects_loop_total (o3d := toy.o3d) (linalg := exact_inverse) (simulator := runs.steady_simulator)
              steady_views intr ["YcbBanana"%string] (mkRunState 0%nat ∅ []))
    as [rs ->].
  cbn [bind ret]. eexists; reflexivity.
Qed.

Lemma steady_run_value :
  run_exp (o3d := toy.o3d) (linalg := exact_inverse) (simulator := runs.steady_simulator) 0%nat
          ["YcbBanana"%string] =
  inl (scene.value ∅ (run_exp (o3d := toy.o3d) (linalg := exact_inverse) (simulator := runs.steady_simulator)
                              0%nat ["YcbBanana"%string])).
Proof. destruct steady_run_returns as [poses Hrun]. rewrite Hrun. reflexivity. Qed.

Lemma run_exp_keys_witness :
  let poses := scene.value ∅
                 (run_exp (o3d := toy.o3d) (linalg := exact_inverse) (simulator := runs.steady_simulator)
                          0%nat ["YcbBanana"%string]) in
  run_exp (o3d := toy.o3d) (linalg := exact_inverse) (simulator := runs.steady_simulator) 0%nat
          ["YcbBanana"%string] = inl poses /\
  dom poses = list_to_set (run_keys ["YcbBanana"%string]) /\
  (forall key : string,
     key ∈ dom poses <->
     exists (obj_name : string) (tstep i : nat),
       In obj_name ["YcbBanana"%string] /\ (tstep < 10)%nat /\ (i < 10000)%nat /\
       (i mod 100 = 0)%nat /\ key = frame_key obj_name tstep i) /\
  length perceived_steps = 100%nat.
Proof.
  intros poses. split; [exact steady_run_value|].
  exact (run_exp_keys (o3d := toy.o3d) (linalg := exact_inverse) (simulator := runs.steady_simulator)
           0%nat ["YcbBanana"%string] poses steady_run_value).
Defined.

Lemma run_exp_size_witness :
  let poses := scene.value ∅
                 (run_exp (o3d := toy.o3d) (linalg := exact_inverse) (simulator := runs.steady_simulator)
                          0%nat ["YcbBanana"%string]) in
  (List.NoDup ["YcbBanana"%string] /\
   run_exp (o3d := toy.o3d) (linalg := exact_inverse) (simulator := runs.steady_simulator) 0%nat
           ["YcbBanana"%string] = inl poses) /\
  size poses = (1000 * length ["YcbBanana"%string])%nat.
Proof.
  intros poses.
  assert (Hnames : List.NoDup ["YcbBanana"%string])
    by (constructor; [intros []|constructor]).
  split; [split; [exact Hnames|exact steady_run_value]|].
  exact (run_exp_size (o3d := toy.o3d) (linalg := exact_inverse) (simulator := runs.steady_simulator)
           0%nat ["YcbBanana"%string] poses Hnames steady_run_value).
Defined.

Lemma steady_trial_value :
  let rs := mkRunState (S := nat) 7%nat ∅ [] in
  trial_body (o3d := toy.o3d) (linalg := exact_inverse) (simulator := runs.steady_simulator) toy.intrinsic
             "YcbBanana" 0 rs =
  inl (scene.value rs
         (trial_body (o3d := toy.o3d) (linalg := exact_inverse) (simulator := runs.steady_simulator)
                     toy.intrinsic "YcbBanana" 0 rs)).
Proof.
  intros rs. unfold trial_body at 1 2.
  destruct (for_each_total (seq 0 10000)
              (step_body (o3d := toy.o3d) (linalg := exact_inverse) (simulator := runs.steady_simulator)
                         toy.intrinsic "YcbBanana" 0)
              (step_body_total (o3d := toy.o3d) (linalg := exact_inverse) (simulator := runs.steady_simulator)
                               steady_views toy.intrinsic "YcbBanana" 0)
              (mkRunState (reset (Simulator := runs.steady_simulator) "YcbBanana"
                                 (sim rs))
                          (all_object_poses rs) (console rs)))
    as [rs' Hrs'].
  rewrite Hrs'. reflexivity.
Qed.


Lemma run_exp_bad_projection_witness :
  length (projection_matrix (Simulator := runs.short_projection_simulator) 0%nat)
    <> 16%nat /\
  run_exp (o3d := toy.o3d) (linalg := exact_inverse) (simulator := runs.short_projection_simulator) 0%nat
          ["YcbBanana"%string] = inr ValueError /\
  intrinsics_builder (projection_matrix (Simulator := runs.short_projection_simulator)
                        0%nat) = inr ValueError.
Proof.
  assert (Hlen : length (projection_matrix
                           (Simulator := runs.short_projection_simulator) 0%nat)
                 <> 16%nat) by (cbn; lia).
  split; [exact Hlen|].
  exact (run_exp_bad_projection (o3d := toy.o3d) (linalg := exact_inverse)
           (simulator := runs.short_projection_simulator) 0%nat
           ["YcbBanana"%string] Hlen).
Defined.

(** ** What a key holds *)

Section RunValues.

Context `{o3d : Open3D} `{linalg : LinAlg} {S : Type} `{simulator : Simulator S}.
Variable intrinsic : Intrinsic.

(** Steps with other keys leave a key alone. *)
Lemma steps_keep_key (obj_name : string) (tstep : nat) (steps : list nat)
    (rs rs' : RunState S) (key : string) :
  for_each steps (step_body intrinsic obj_name tstep) rs = inl rs' ->
  (forall j : nat, In j steps -> key <> frame_key obj_name tstep j) ->
  all_object_poses rs' !! key = all_object_poses rs !! key.
Proof.
  revert rs. induction steps as [|j steps IH]; intros rs Hrun Hkey.
  - now injection Hrun as <-.
  - cbn [for_each] in Hrun.
    destruct (step_body intrinsic obj_name tstep j rs) as [rs1|e] eqn:Hstep;
      [|discriminate Hrun].
    cbn [bind] in Hrun. rewrite (IH _ Hrun) by (intros; apply Hkey; now right).
    unfold step_body in Hstep.
    destruct (negb (j mod 100 =? 0)%nat).
    + now injection Hstep as <-.
    + destruct (perceive_frame _ _ _) as [fs|e]; [|discriminate Hstep].
      injection Hstep as <-. cbn [all_object_poses].
      apply lookup_insert_ne. intros Heq. apply (Hkey j); [now left|now symmetry].
Qed.

Lemma steps_store_frames (obj_name : string) (tstep : nat) (n a : nat)
    (rs rs' : RunState S) :
  for_each (seq a n) (step_body intrinsic obj_name tstep) rs = inl rs' ->
  forall i : nat, (a <= i < a + n)%nat -> (i mod 100 = 0)%nat ->
  let s := Nat.iter (Datatypes.S (i - a)) step (sim rs) in
  exists fs : FrameState,
    perceive_frame intrinsic (get_static_renders s) (stat_viewMat s) = inl fs /\
    all_object_poses rs' !! frame_key obj_name tstep i = Some (timestep_object_poses fs).
Proof.
  revert a rs. induction n as [|n IH]; intros a rs Hrun i Hi Hmod; [lia|].
  cbn [seq for_each] in Hrun.
  destruct (step_body intrinsic obj_name tstep a rs) as [rs1|e] eqn:Hstep;
    [|discriminate Hrun].
  cbn [bind] in Hrun.
  assert (Hsim1 : sim rs1 = step (sim rs)).
  { unfold step_body in Hstep. destruct (negb (a mod 100 =? 0)%nat).
    - now injection Hstep as <-.
    - destruct (perceive_frame _ _ _) as [fs|e]; [|discriminate Hstep].
      now injection Hstep as <-. }
  destruct (Nat.eq_dec i a) as [->|Hne].
  - replace (a - a)%nat with 0%nat by lia. cbn [Nat.iter].
    unfold step_body in Hstep. rewrite Hmod in Hstep. cbn [Nat.eqb negb] in Hstep.
    destruct (perceive_frame _ _ _) as [fs|e]; [|discriminate Hstep].
    exists fs. split; [reflexivity|]. injection Hstep as <-.
    rewrite (steps_keep_key _ _ _ _ _ _ Hrun).
    + cbn [all_object_poses]. apply lookup_insert_eq.
    + intros j Hj Heq. apply in_seq in Hj.
      apply frame_key_inj in Heq as (_ & _ & Heq). lia.
  - destruct (IH (Datatypes.S a) rs1 Hrun i) as (fs & Hfs & Hlook); [lia|assumption|].
    rewrite Hsim1, <- Nat.iter_succ_r in Hfs.
    replace (Datatypes.S (Datatypes.S (i - Datatypes.S a))) with (Datatypes.S (i - a))
      in Hfs by lia.
    exists fs. split; assumption.
Qed.

(** X23.  After a trial that does not raise, the key of every perceived
    step holds the Frame Result of the frame the camera saw at that
    step, that is after the reset and [i + 1] simulation steps; later
    steps of the trial do not overwrite it. *)
Theorem trial_stores_each_frame (obj_name : string) (tstep : nat)
    (rs rs' : RunState S) (i : nat) :
  trial_body intrinsic obj_name tstep rs = inl rs' ->
  (i < 10000)%nat ->
  (i mod 100 = 0)%nat ->
  let s := Nat.iter (Datatypes.S i) step (reset obj_name (sim rs)) in
  exists fs : FrameState,
    perceive_frame intrinsic (get_static_renders s) (stat_viewMat s) = inl fs /\
    all_object_poses rs' !! frame_key obj_name tstep i = Some (timestep_object_poses fs).
Proof.
  intros Htrial Hi Hmod. unfold trial_body in Htrial.
  destruct (steps_store_frames _ _ _ _ _ _ Htrial i) as (fs & Hfs & Hlook);
    [lia|assumption|].
  cbn [sim] in Hfs. rewrite Nat.sub_0_r in Hfs. exists fs. split; assumption.
Qed.

End RunValues.

Lemma trial_stores_each_frame_witness :
  let rs := mkRunState (S := nat) 7%nat ∅ [] in
  let rs' := scene.value rs
               (trial_body (o3d := toy.o3d) (linalg := exact_inverse) (simulator := runs.steady_simulator)
                           toy.intrinsic "YcbBanana" 0 rs) in
  let s := Nat.iter 101 (step (Simulator := runs.steady_simulator))
                    (reset (Simulator := runs.steady_simulator) "YcbBanana" (sim rs)) in
  (trial_body (o3d := toy.o3d) (linalg := exact_inverse) (simulator := runs.steady_simulator) toy.intrinsic
              "YcbBanana" 0 rs = inl rs' /\
   (100 < 10000)%nat /\ (100 mod 100 = 0)%nat) /\
  exists fs : FrameState,
    perceive_frame (o3d := toy.o3d) (linalg := exact_inverse) toy.intrinsic
      (get_static_renders (Simulator := runs.steady_simulator) s)
      (stat_viewMat (Simulator := runs.steady_simulator) s) = inl fs /\
    all_object_poses rs' !! frame_key "YcbBanana" 0 100 = Some (timestep_object_poses fs).
Proof.
  intros rs rs' s.
  assert (Hi : (100 < 10000)%nat) by (apply Nat.ltb_lt; vm_compute; reflexivity).
  assert (Hmod : (100 mod 100 = 0)%nat) by reflexivity.
  split; [split; [exact steady_trial_value|split; [exact Hi|exact Hmod]]|].
  exact (trial_stores_each_frame (o3d := toy.o3d) (linalg := exact_inverse) (simulator := runs.steady_simulator)
           toy.intrinsic "YcbBanana" 0 rs rs' 100 steady_trial_value Hi Hmod).
Defined.
